(** * Ticket service: seat inventory handlers of [src/index.js]

    The service is an Express application over a Mongoose model [Ticket].
    This development embeds the request handlers as functions over an explicit
    collection (a finite map from [_id] to the stored fields) and proves the
    properties of the seat ledger (reserve / release), of the queries
    (list / get) and of the read-then-write interleavings of concurrent
    reservations.

    Conventions of the embedding:
    - the seat counters and timestamps are integers ([Z]), and [NaN] is kept
      as a separate outcome of the arithmetic. A JavaScript number is an
      IEEE double: its sums and differences are the exact ones as long as the
      operands and the result are integers of magnitude at most 2^53
      ([safe_integer]); the theorems whose statement depends on that
      exactness carry the bound as a hypothesis. Numbers with a fractional
      part are outside the embedding;
    - [price] is a rational;
    - [new Date()] is an explicit argument [now] (milliseconds since epoch);
    - the library functions that read or write text ([ObjectId] casting,
      [parseFloat], [new Date(string)], the conversions between strings and
      numbers) are parameters. *)

From Stdlib Require Import ZArith QArith Lia Ascii.
From stdpp Require Import gmap strings list fin_maps sorting pretty.

Local Open Scope string_scope.
Local Open Scope list_scope.
Local Open Scope Z_scope.

(** ** JavaScript numbers and the values a JSON body can give [quantity] *)

Inductive number :=
| Fin (z : Z)
| NaN.

(** The largest magnitude up to which every integer is a double. *)
Definition max_safe : Z := 2 ^ 53.

Definition safe_integer (z : Z) : Prop := - max_safe ≤ z ≤ max_safe.

(** The conversions between text and numbers: ECMAScript [StringToNumber]
    (what [Number(s)] and the operators [<] and [-] read in a string) and
    [Number::toString] (the text [+] appends to). They are parameters; the one
    fact used about them is that the text of 0 followed by anything never
    reads as a negative number (it starts with the digit 0, not with a
    sign). *)
Class JSText := {
  StringToNumber : string → number;
  NumberToString : Z → string;
  zero_prefix_nonneg s m :
    StringToNumber (String.append (NumberToString 0) s) = Fin m → 0 ≤ m
}.

(** [quantity] is read by [const { quantity } = req.body]: absent
    ([VUndefined]), [null], a boolean, a number or a string. An array or an
    object meets the operators [<], [-] and [+] through its string form
    ([ToPrimitive]), so [VStr] stands for it as well. *)
Inductive value :=
| VUndefined
| VNull
| VBool (b : bool)
| VNum (n : number)
| VStr (s : string).

(** ECMAScript [ToNumber]. *)
Definition ToNumber `{!JSText} (v : value) : number :=
  match v with
  | VUndefined => NaN
  | VNull => Fin 0
  | VBool true => Fin 1
  | VBool false => Fin 0
  | VNum n => n
  | VStr s => StringToNumber s
  end.

Definition is_text (v : value) : bool :=
  match v with
  | VStr _ => true
  | _ => false
  end.

(** [a < b] on numbers: false as soon as one side is [NaN]. *)
Definition js_lt (a b : number) : bool :=
  match a, b with
  | Fin x, Fin y => x <? y
  | _, _ => false
  end.

(** [a - b]: the exact difference, which is the double the code computes
    when the operands and the difference are [safe_integer]s. *)
Definition js_sub (a b : number) : number :=
  match a, b with
  | Fin x, Fin y => Fin (x - y)
  | _, _ => NaN
  end.

(** [a + b] on two non-string operands: the exact sum, which is the double
    the code computes when the operands and the sum are [safe_integer]s. *)
Definition js_add (a b : number) : number :=
  match a, b with
  | Fin x, Fin y => Fin (x + y)
  | _, _ => NaN
  end.

(** What [a + b] evaluates to when [a] is a number: a string as soon as [b]
    is one (the text of [a] followed by [b]), a number otherwise. *)
Inductive sum :=
| SumNumber (n : number)
| SumString (s : string).

Definition js_plus `{!JSText} (a : Z) (b : value) : sum :=
  match b with
  | VStr s => SumString (String.append (NumberToString a) s)
  | _ => SumNumber (js_add (Fin a) (ToNumber b))
  end.

(** Mongoose's cast of an assigned value to a Number path: a string is read
    with [Number(s)]; [NaN] stands for a value the path does not keep (a
    [NaN], or the empty string, which is cast to [null] and refused by the
    [required] validator). *)
Definition castNumber `{!JSText} (v : sum) : number :=
  match v with
  | SumNumber n => n
  | SumString s => if String.eqb s "" then NaN else StringToNumber s
  end.

(** ** The schema (src/index.js, lines 15-38) *)

Definition ObjectId := N.

Record Ticket := mkTicket {
  eventName : string;
  eventType : string;
  venue : string;
  date : Z;
  time : string;
  price : Q;
  currency : string;
  totalSeats : Z;
  availableSeats : Z;
  description : option string;
  imageUrl : option string;
  status : string;
  createdAt : Z;
  updatedAt : Z
}.

Definition eventType_enum : list string :=
  ["movie"; "concert"; "sports"; "theater"; "conference"; "other"].

Definition status_enum : list string :=
  ["active"; "sold-out"; "cancelled"; "completed"].

Definition with_availableSeats (v : Z) (t : Ticket) : Ticket :=
  mkTicket (eventName t) (eventType t) (venue t) (date t) (time t) (price t)
    (currency t) (totalSeats t) v (description t) (imageUrl t) (status t)
    (createdAt t) (updatedAt t).

Definition with_status (v : string) (t : Ticket) : Ticket :=
  mkTicket (eventName t) (eventType t) (venue t) (date t) (time t) (price t)
    (currency t) (totalSeats t) (availableSeats t) (description t) (imageUrl t) v
    (createdAt t) (updatedAt t).

Definition with_updatedAt (v : Z) (t : Ticket) : Ticket :=
  mkTicket (eventName t) (eventType t) (venue t) (date t) (time t) (price t)
    (currency t) (totalSeats t) (availableSeats t) (description t) (imageUrl t)
    (status t) (createdAt t) v.

(** Mongoose's [required] validator on a String path refuses the empty
    string. *)
Definition checkRequired (s : string) : bool := negb (String.eqb s "").

(** Document validation run by [save()]: required paths and enum membership.
    The Number and Date paths are present by typing. *)
Definition validate (t : Ticket) : bool :=
  checkRequired (eventName t)
  && bool_decide (eventType t ∈ eventType_enum)
  && checkRequired (venue t)
  && checkRequired (time t)
  && bool_decide (status t ∈ status_enum).

(** ** Mongoose documents and the collection *)

Inductive error :=
| CastError
| ValidationError
| DocumentNotFoundError
| DuplicateKeyError.

Inductive Result (A : Type) :=
| Ok (a : A)
| Err (e : error).
Arguments Ok {A} a.
Arguments Err {A} e.

(** The paths the seat handlers assign. *)
Inductive path :=
| PAvailableSeats
| PStatus
| PUpdatedAt.

(** A hydrated document: its [_id], the current field values, the paths
    marked modified since it was loaded, and whether an assignment failed to
    cast (Mongoose records the error on the document and reports it from
    [save()]). *)
Record Document := mkDocument {
  _id : ObjectId;
  fields : Ticket;
  modifiedPaths : list path;
  castFailed : bool
}.

Abbreviation DB := (gmap ObjectId Ticket).

Definition hydrate (oid : ObjectId) (t : Ticket) : Document :=
  mkDocument oid t [] false.

(** [ticket.availableSeats = v]: the Number schema type casts the value; a
    [NaN] does not cast, the path keeps its prior value and the document is
    invalidated. A value equal to the prior one does not mark the path. *)
Definition doc_set_availableSeats (v : number) (d : Document) : Document :=
  match v with
  | NaN => mkDocument (_id d) (fields d) (modifiedPaths d) true
  | Fin z =>
      if decide (z = availableSeats (fields d)) then d
      else mkDocument (_id d) (with_availableSeats z (fields d))
             (PAvailableSeats :: modifiedPaths d) (castFailed d)
  end.

(** [ticket.status = v]. *)
Definition doc_set_status (v : string) (d : Document) : Document :=
  if decide (v = status (fields d)) then d
  else mkDocument (_id d) (with_status v (fields d))
         (PStatus :: modifiedPaths d) (castFailed d).

(** [ticket.updatedAt = v]. *)
Definition doc_set_updatedAt (v : Z) (d : Document) : Document :=
  if decide (v = updatedAt (fields d)) then d
  else mkDocument (_id d) (with_updatedAt v (fields d))
         (PUpdatedAt :: modifiedPaths d) (castFailed d).

(** The [$set] that [save()] sends for one modified path. *)
Definition set_path (d : Document) (p : path) (cur : Ticket) : Ticket :=
  match p with
  | PAvailableSeats => with_availableSeats (availableSeats (fields d)) cur
  | PStatus => with_status (status (fields d)) cur
  | PUpdatedAt => with_updatedAt (updatedAt (fields d)) cur
  end.

(** [await ticket.save()] on a loaded document: validation first (a recorded
    cast failure or an invalid path rejects), then one [updateOne] by [_id]
    that sets the modified paths. A document whose record is gone is rejected
    with DocumentNotFoundError, also when no path is modified. *)
Definition save (d : Document) (db : DB) : Result DB :=
  if castFailed d || negb (validate (fields d)) then Err ValidationError
  else
    match db !! _id d with
    | None => Err DocumentNotFoundError
    | Some cur => Ok (<[_id d := foldr (set_path d) cur (modifiedPaths d)]> db)
    end.

(** ** Responses *)

Inductive body :=
| BError (error : string)
| BMessage (message : string)
| BTicket (ticket : ObjectId * Ticket)
| BMessageTicket (message : string) (ticket : ObjectId * Ticket)
| BTickets (tickets : list (ObjectId * Ticket)).

Record response := mkResponse {
  code : Z;
  json : body
}.

Definition toJSON (d : Document) : ObjectId * Ticket := (_id d, fields d).

Section Service.

Context {text : JSText}.

(** Mongoose's cast of a request string to an [ObjectId]; [None] when the
    string is not a well-formed identifier. *)
Variable castObjectId : string → option ObjectId.

(** [Ticket.findById(id)]: rejects with a CastError on a malformed id,
    resolves to [null] when no document has it. *)
Definition findById (id : string) (db : DB) : Result (option Document) :=
  match castObjectId id with
  | None => Err CastError
  | Some oid => Ok (hydrate oid <$> db !! oid)
  end.

(** *** POST /api/tickets/:id/reserve (lines 209-234) *)

(** The handler after [findById] has resolved to a document. *)
Definition reserve_found (quantity : value) (now : Z) (ticket : Document) (db : DB)
  : response * DB :=
  if js_lt (Fin (availableSeats (fields ticket))) (ToNumber quantity) then
    (mkResponse 400 (BError "Not enough seats available"), db)
  else
    let ticket :=
      doc_set_availableSeats
        (js_sub (Fin (availableSeats (fields ticket))) (ToNumber quantity)) ticket in
    let ticket :=
      if availableSeats (fields ticket) =? 0 then doc_set_status "sold-out" ticket
      else ticket in
    let ticket := doc_set_updatedAt now ticket in
    match save ticket db with
    | Ok db' =>
        (mkResponse 200 (BMessageTicket "Seats reserved successfully" (toJSON ticket)), db')
    | Err _ => (mkResponse 500 (BError "Error reserving seats"), db)
    end.

Definition reserve (id : string) (quantity : value) (now : Z) (db : DB)
  : response * DB :=
  match findById id db with
  | Err _ => (mkResponse 500 (BError "Error reserving seats"), db)
  | Ok None => (mkResponse 404 (BError "Ticket not found"), db)
  | Ok (Some ticket) => reserve_found quantity now ticket db
  end.

(** *** POST /api/tickets/:id/release (lines 237-258) *)

Definition release_found (quantity : value) (now : Z) (ticket : Document) (db : DB)
  : response * DB :=
  let ticket :=
    doc_set_availableSeats
      (castNumber (js_plus (availableSeats (fields ticket)) quantity)) ticket in
  let ticket :=
    if (0 <? availableSeats (fields ticket)) && String.eqb (status (fields ticket)) "sold-out"
    then doc_set_status "active" ticket
    else ticket in
  let ticket := doc_set_updatedAt now ticket in
  match save ticket db with
  | Ok db' =>
      (mkResponse 200 (BMessageTicket "Seats released successfully" (toJSON ticket)), db')
  | Err _ => (mkResponse 500 (BError "Error releasing seats"), db)
  end.

Definition release (id : string) (quantity : value) (now : Z) (db : DB)
  : response * DB :=
  match findById id db with
  | Err _ => (mkResponse 500 (BError "Error releasing seats"), db)
  | Ok None => (mkResponse 404 (BError "Ticket not found"), db)
  | Ok (Some ticket) => release_found quantity now ticket db
  end.


(** *** GET /api/tickets/:id (lines 164-175) *)

Definition get (id : string) (db : DB) : response :=
  match findById id db with
  | Err _ => mkResponse 500 (BError "Error fetching ticket")
  | Ok None => mkResponse 404 (BError "Ticket not found")
  | Ok (Some ticket) => mkResponse 200 (BTicket (toJSON ticket))
  end.

(** *** GET /api/tickets (lines 135-161) *)

(** [parseFloat] on a query string; [None] is [NaN]. *)
Variable parseFloat : string → option Q.

(** [new Date(string).getTime()]; [None] is an invalid date. *)
Variable parseDate : string → option Z.

(** [req.query]: each parameter is absent or a string. *)
Record Query := mkQuery {
  q_eventType : option string;
  q_status : option string;
  q_minPrice : option string;
  q_maxPrice : option string;
  q_date : option string
}.

(** Truthiness of a query parameter: [undefined] and the empty string are
    falsy. *)
Definition truthy (p : option string) : bool :=
  match p with
  | Some s => negb (String.eqb s "")
  | None => false
  end.

(** The Mongo filter object the handler builds. A condition is absent
    ([None]) or holds the value computed for it, which for a number is
    possibly [NaN] and for a date possibly invalid (inner [None]). *)
Record Filter := mkFilter {
  f_eventType : option string;
  f_status : option string;
  f_price_gte : option (option Q);
  f_price_lte : option (option Q);
  f_date_gte : option (option Z);
  f_date_lt : option (option Z)
}.

Definition build_filter (query : Query) : Filter :=
  let searchDate := q_date query ≫= parseDate in
  mkFilter
    (if truthy (q_eventType query) then q_eventType query else None)
    (if truthy (q_status query) then q_status query else None)
    (if truthy (q_minPrice query) || truthy (q_maxPrice query) then
       if truthy (q_minPrice query) then Some (q_minPrice query ≫= parseFloat) else None
     else None)
    (if truthy (q_minPrice query) || truthy (q_maxPrice query) then
       if truthy (q_maxPrice query) then Some (q_maxPrice query ≫= parseFloat) else None
     else None)
    (if truthy (q_date query) then Some searchDate else None)
    (if truthy (q_date query) then Some ((λ ms, ms + 24 * 60 * 60 * 1000) <$> searchDate)
     else None).

(** Query casting: a [NaN] or an invalid date in a condition is a
    CastError. *)
Definition castable {A} (c : option (option A)) : bool :=
  match c with
  | Some None => false
  | _ => true
  end.

Definition holds {A} (test : A → bool) (c : option A) : bool :=
  match c with
  | Some x => test x
  | None => true
  end.

Definition matches (f : Filter) (t : Ticket) : bool :=
  holds (String.eqb (eventType t)) (f_eventType f)
  && holds (String.eqb (status t)) (f_status f)
  && holds (holds (λ lo, Qle_bool lo (price t))) (f_price_gte f)
  && holds (holds (λ hi, Qle_bool (price t) hi)) (f_price_lte f)
  && holds (holds (λ d, d <=? date t)) (f_date_gte f)
  && holds (holds (λ d, date t <? d)) (f_date_lt f).

(** [Ticket.find(filter)]. *)
Definition find (f : Filter) (db : DB) : Result (list (ObjectId * Ticket)) :=
  if castable (f_price_gte f) && castable (f_price_lte f)
     && castable (f_date_gte f) && castable (f_date_lt f)
  then Ok (filter (λ d, matches f d.2) (map_to_list db))
  else Err CastError.

Definition date_le (a b : ObjectId * Ticket) : Prop := date a.2 ≤ date b.2.

#[global] Instance date_le_dec : RelDecision date_le :=
  λ a b, decide (date a.2 ≤ date b.2).

(** [.sort({ date: 1 })]. *)
Definition sort_by_date (l : list (ObjectId * Ticket)) : list (ObjectId * Ticket) :=
  merge_sort date_le l.

Definition list_tickets (query : Query) (db : DB) : response :=
  match find (build_filter query) db with
  | Ok tickets => mkResponse 200 (BTickets (sort_by_date tickets))
  | Err _ => mkResponse 500 (BError "Error fetching tickets")
  end.

(** *** POST /api/tickets (lines 178-187) and PUT /api/tickets/:id (190-206) *)

(** A request body after the schema has cast it: every path is absent or
    holds a value of its type; paths outside the schema are dropped. A body
    with a value that does not cast to the type of its path, or with update
    operators, is outside the embedding. *)
Record TicketInput := mkTicketInput {
  in_eventName : option string;
  in_eventType : option string;
  in_venue : option string;
  in_date : option Z;
  in_time : option string;
  in_price : option Q;
  in_currency : option string;
  in_totalSeats : option Z;
  in_availableSeats : option Z;
  in_description : option string;
  in_imageUrl : option string;
  in_status : option string;
  in_createdAt : option Z;
  in_updatedAt : option Z
}.

(** [new Ticket(req.body)] with the schema defaults; [None] when a required
    path is missing. *)
Definition construct (b : TicketInput) (now : Z) : option Ticket :=
  name ← in_eventName b;
  type ← in_eventType b;
  venue ← in_venue b;
  date ← in_date b;
  time ← in_time b;
  price ← in_price b;
  total ← in_totalSeats b;
  available ← in_availableSeats b;
  Some (mkTicket name type venue date time price
          (default "USD" (in_currency b)) total available
          (in_description b) (in_imageUrl b)
          (default "active" (in_status b))
          (default now (in_createdAt b)) (default now (in_updatedAt b))).

(** [new Ticket(req.body).save()]: [oid] is the identifier generated for the
    new document. *)
Definition create (oid : ObjectId) (b : TicketInput) (now : Z) (db : DB)
  : response * DB :=
  match construct b now with
  | Some ticket =>
      if validate ticket then
        match db !! oid with
        | None =>
            (mkResponse 201 (BMessageTicket "Ticket created successfully" (oid, ticket)),
             <[oid := ticket]> db)
        | Some _ => (mkResponse 500 (BError "Error creating ticket"), db)
        end
      else (mkResponse 500 (BError "Error creating ticket"), db)
  | None => (mkResponse 500 (BError "Error creating ticket"), db)
  end.

(** The [$set] of the supplied paths; [req.body.updatedAt = new Date()]
    always supplies [updatedAt]. Update validators are off. *)
Definition apply_update (b : TicketInput) (now : Z) (t : Ticket) : Ticket :=
  mkTicket
    (default (eventName t) (in_eventName b))
    (default (eventType t) (in_eventType b))
    (default (venue t) (in_venue b))
    (default (date t) (in_date b))
    (default (time t) (in_time b))
    (default (price t) (in_price b))
    (default (currency t) (in_currency b))
    (default (totalSeats t) (in_totalSeats b))
    (default (availableSeats t) (in_availableSeats b))
    (match in_description b with Some s => Some s | None => description t end)
    (match in_imageUrl b with Some s => Some s | None => imageUrl t end)
    (default (status t) (in_status b))
    (default (createdAt t) (in_createdAt b))
    now.

Definition update (id : string) (b : TicketInput) (now : Z) (db : DB)
  : response * DB :=
  match castObjectId id with
  | None => (mkResponse 500 (BError "Error updating ticket"), db)
  | Some oid =>
      match db !! oid with
      | None => (mkResponse 404 (BError "Ticket not found"), db)
      | Some t =>
          let ticket := apply_update b now t in
          (mkResponse 200 (BMessageTicket "Ticket updated successfully" (oid, ticket)),
           <[oid := ticket]> db)
      end
  end.

(** *** DELETE /api/tickets/:id (lines 261-272) *)

Definition delete_ticket (id : string) (db : DB) : response * DB :=
  match castObjectId id with
  | None => (mkResponse 500 (BError "Error deleting ticket"), db)
  | Some oid =>
      match db !! oid with
      | None => (mkResponse 404 (BError "Ticket not found"), db)
      | Some _ => (mkResponse 200 (BMessage "Ticket deleted successfully"), delete oid db)
      end
  end.

(** ** Sequences of operations *)

Inductive op :=
| Create (oid : ObjectId) (b : TicketInput) (now : Z)
| Reserve (id : string) (quantity : value) (now : Z)
| Release (id : string) (quantity : value) (now : Z)
| Update (id : string) (b : TicketInput) (now : Z).

Definition exec (o : op) (db : DB) : response * DB :=
  match o with
  | Create oid b now => create oid b now db
  | Reserve id quantity now => reserve id quantity now db
  | Release id quantity now => release id quantity now db
  | Update id b now => update id b now db
  end.

Fixpoint run (ops : list op) (db : DB) : DB :=
  match ops with
  | [] => db
  | o :: rest => run rest (exec o db).2
  end.

(** ** Concurrent reservations

    A reserve request meets the collection twice: at [await findById] and at
    [await ticket.save()]. Between the two, other requests may run. A request
    is therefore a process of two atomic steps. *)

Inductive proc :=
| Pending (id : string) (quantity : value)
| Loaded (quantity : value) (ticket : Document)
| Done (r : response).

Definition proc_step (now : Z) (p : proc) (db : DB) : proc * DB :=
  match p with
  | Pending id quantity =>
      match findById id db with
      | Err _ => (Done (mkResponse 500 (BError "Error reserving seats")), db)
      | Ok None => (Done (mkResponse 404 (BError "Ticket not found")), db)
      | Ok (Some ticket) => (Loaded quantity ticket, db)
      end
  | Loaded quantity ticket =>
      let (r, db') := reserve_found quantity now ticket db in (Done r, db')
  | Done r => (Done r, db)
  end.

(** One scheduling decision: request [i] advances by one step at time
    [now]. *)
Definition sched_step (s : DB * list proc) (e : nat * Z) : DB * list proc :=
  match s.2 !! e.1 with
  | Some p => let (p', db') := proc_step e.2 p s.1 in (db', <[e.1 := p']> s.2)
  | None => s
  end.

Definition run_schedule (sched : list (nat * Z)) (s : DB * list proc) : DB * list proc :=
  foldl sched_step s sched.

(** The schedule that serves the requests one after the other: request [i]
    takes both its steps before request [i + 1] starts. *)
Fixpoint serial (i : nat) (nows : list Z) : list (nat * Z) :=
  match nows with
  | [] => []
  | now :: rest => (i, now) :: (i, now) :: serial (S i) rest
  end.


Definition has_code (c : Z) (p : proc) : bool :=
  match p with
  | Done r => code r =? c
  | _ => false
  end.

Definition count_code (c : Z) (ps : list proc) : nat :=
  length (filter (λ p, has_code c p = true) ps).

End Service.

(** ** Instances of the library parameters

    Concrete readings of request text, used to run the handlers on sample
    requests. *)

Definition digit_of (a : ascii) : option Z :=
  let n := Z.of_N (N_of_ascii a) in
  if (48 <=? n) && (n <=? 57) then Some (n - 48) else None.

Definition hex_of (a : ascii) : option Z :=
  let n := Z.of_N (N_of_ascii a) in
  if (48 <=? n) && (n <=? 57) then Some (n - 48)
  else if (97 <=? n) && (n <=? 102) then Some (n - 87)
  else if (65 <=? n) && (n <=? 70) then Some (n - 55)
  else None.

(** Reads a whole string of digits in the given base. *)
Fixpoint read_digits (digit : ascii → option Z) (base acc : Z) (s : string) : option Z :=
  match s with
  | EmptyString => Some acc
  | String a rest =>
      match digit a with
      | Some d => read_digits digit base (base * acc + d) rest
      | None => None
      end
  end.

(** [Number(s)] on a signed decimal integer literal; the empty string reads
    as 0 and any other text as [NaN]. *)
Definition StringToNumber_integer (s : string) : number :=
  match s with
  | EmptyString => Fin 0
  | String "-" EmptyString => NaN
  | String "+" EmptyString => NaN
  | String "-" r =>
      match read_digits digit_of 10 0 r with
      | Some n => Fin (- n)
      | None => NaN
      end
  | String "+" r =>
      match read_digits digit_of 10 0 r with
      | Some n => Fin n
      | None => NaN
      end
  | _ =>
      match read_digits digit_of 10 0 s with
      | Some n => Fin n
      | None => NaN
      end
  end.

(** Decimal integer literals read with [StringToNumber_integer] and integers
    written in decimal. *)
Definition decimal_text : JSText.
Proof.
  refine {| StringToNumber := StringToNumber_integer; NumberToString := pretty |}.
  intros s m. change (String.append (pretty 0) s) with (String "0" s).
  assert (Hpos : ∀ r acc n, 0 ≤ acc → read_digits digit_of 10 acc r = Some n → 0 ≤ n).
  { induction r as [|a r IH]; intros acc n Hacc; cbn.
    - intros [= <-]. exact Hacc.
    - unfold digit_of at 1.
      destruct ((48 <=? Z.of_N (N_of_ascii a)) && (Z.of_N (N_of_ascii a) <=? 57)) eqn:Hd;
        [|discriminate].
      apply IH. apply andb_prop in Hd as [Hd _]. apply Z.leb_le in Hd. lia. }
  cbn. change (digit_of "0") with (Some 0). cbn. change (10 * 0 + 0) with 0.
  destruct (read_digits digit_of 10 0 s) as [n|] eqn:Hr; [|discriminate].
  intros [= <-]. eapply (Hpos s 0); [lia|]. exact Hr.
Defined.

(** The 24 hexadecimal digit form of an [ObjectId]. *)
Definition castObjectId_hex (s : string) : option ObjectId :=
  if (String.length s =? 24)%nat then Z.to_N <$> read_digits hex_of 16 0 s else None.

(** [parseFloat] on a non-empty string of decimal digits. *)
Definition parseFloat_digits (s : string) : option Q :=
  match s with
  | EmptyString => None
  | _ => inject_Z <$> read_digits digit_of 10 0 s
  end.

(** Days between 1970-01-01 and the civil date [y]-[m]-[d]. *)
Definition days_from_civil (y m d : Z) : Z :=
  let y' := if m <=? 2 then y - 1 else y in
  let era := y' / 400 in
  let yoe := y' - era * 400 in
  let mp := (m + 9) mod 12 in
  let doy := (153 * mp + 2) / 5 + d - 1 in
  let doe := yoe * 365 + yoe / 4 - yoe / 100 + doy in
  era * 146097 + doe - 719468.

(** [new Date(s).getTime()] on the date-only form [YYYY-MM-DD]: midnight
    UTC of that day. *)
Definition parseDate_iso (s : string) : option Z :=
  if (String.length s =? 10)%nat
     && bool_decide (String.get 4 s = Some "-"%char)
     && bool_decide (String.get 7 s = Some "-"%char)
  then
    y ← read_digits digit_of 10 0 (String.substring 0 4 s);
    m ← read_digits digit_of 10 0 (String.substring 5 2 s);
    d ← read_digits digit_of 10 0 (String.substring 8 2 s);
    if (1 <=? m) && (m <=? 12) && (1 <=? d) && (d <=? 31)
    then Some (days_from_civil y m d * 86400000)
    else None
  else None.

(** The same on the date-time form [YYYY-MM-DDTHH:MM:SSZ] as well: the
    instant of that UTC time. *)
Definition parseDate_instant (s : string) : option Z :=
  if (String.length s =? 20)%nat
     && bool_decide (String.get 10 s = Some "T"%char)
     && bool_decide (String.get 13 s = Some ":"%char)
     && bool_decide (String.get 16 s = Some ":"%char)
     && bool_decide (String.get 19 s = Some "Z"%char)
  then
    day ← parseDate_iso (String.substring 0 10 s);
    h ← read_digits digit_of 10 0 (String.substring 11 2 s);
    mi ← read_digits digit_of 10 0 (String.substring 14 2 s);
    sec ← read_digits digit_of 10 0 (String.substring 17 2 s);
    if (h <=? 23) && (mi <=? 59) && (sec <=? 59)
    then Some (day + ((h * 60 + mi) * 60 + sec) * 1000)
    else None
  else parseDate_iso s.

(** ** Sample data (the seed documents of lines 58-119) *)

Definition rock_concert : Ticket :=
  mkTicket "Rock Concert 2024" "concert" "Madison Square Garden" 1734220800000
    "20:00" (85 # 1) "USD" 500 500
    (Some "An amazing rock concert featuring top bands") (Some "/images/concert.jpg")
    "active" 0 0.

Definition movie_premiere : Ticket :=
  mkTicket "BlockBuster Movie Premiere" "movie" "AMC Theater" 1732924800000
    "19:30" (25 # 1) "USD" 200 200
    (Some "Exclusive premiere of the year's most anticipated movie")
    (Some "/images/movie.jpg") "active" 0 0.

Definition oid1 : string := "64b000000000000000000001".
Definition oid2 : string := "64b000000000000000000002".

Definition key1 : ObjectId := 31161271926386681607226392577%N.
Definition key2 : ObjectId := 31161271926386681607226392578%N.

Definition seeded : DB :=
  <[key1 := rock_concert]> (<[key2 := movie_premiere]> ∅).

(** A show that was called off, with five seats left. *)
Definition called_off : Ticket :=
  mkTicket "Open Air Festival" "concert" "Riverside Park" 1734220800000
    "18:00" (40 # 1) "USD" 50 5 None None "cancelled" 0 0.

Definition oid3 : string := "64b000000000000000000003".
Definition key3 : ObjectId := 31161271926386681607226392579%N.

Definition with_called_off : DB := <[key3 := called_off]> seeded.

(** A show with a single seat left. *)
Definition last_seat : Ticket :=
  mkTicket "Closing Night" "theater" "Broadway Theater" 1733011200000
    "19:00" (65 # 1) "USD" 300 1 None None "active" 0 0.

Definition nearly_full : DB := <[key1 := last_seat]> ∅.

(** A creation body and a seat-count update. *)
Definition jazz_night : TicketInput :=
  mkTicketInput (Some "Jazz Night") (Some "concert") (Some "Blue Note")
    (Some 1735689600000) (Some "21:00") (Some (30 # 1)) None (Some 80) (Some 80)
    None None None None None.

Definition seats_only (available : Z) : TicketInput :=
  mkTicketInput None None None None None None None None (Some available)
    None None None None None.

Definition sample_ops : list op :=
  [ Create key3 jazz_night 1;
    Reserve oid1 (VNum (Fin 5)) 2;
    Release oid1 (VNum (Fin 5)) 3;
    Update oid2 (seats_only 10) 4;
    Reserve oid3 (VNum (Fin 80)) 5 ].

(** ** Specification-side notions *)

Definition empty_query : Query := mkQuery None None None None None.

(** [GET /api/tickets?minPrice=50]. *)
Definition at_least_50 : Query := mkQuery None None (Some "50") None None.

(** The seat invariant of the data model. *)
Definition seat_invariant (t : Ticket) : Prop :=
  0 ≤ availableSeats t ≤ totalSeats t.

Definition db_invariant (db : DB) : Prop :=
  map_Forall (λ _ t, seat_invariant t) db.

(** An operation uses valid in-bounds quantities: a created record has
    [0 ≤ availableSeats ≤ totalSeats]; a reserved or released quantity is a
    positive integer; a release does not exceed the seats missing from the
    ticket it addresses; an update leaves the counters of the ticket it
    addresses within bounds. *)
Definition in_bounds `{!JSText} (castObjectId : string → option ObjectId)
    (o : op) (db : DB) : bool :=
  match o with
  | Create _ b _ =>
      match in_availableSeats b, in_totalSeats b with
      | Some a, Some n => (0 <=? a) && (a <=? n)
      | _, _ => true
      end
  | Reserve _ quantity _ =>
      match quantity with
      | VNum (Fin z) => 0 <? z
      | _ => false
      end
  | Release id quantity _ =>
      match quantity with
      | VNum (Fin z) =>
          (0 <? z)
          && match castObjectId id ≫= (db !!.) with
             | Some t => availableSeats t + z <=? totalSeats t
             | None => true
             end
      | _ => false
      end
  | Update id b _ =>
      match castObjectId id ≫= (db !!.) with
      | Some t =>
          (0 <=? default (availableSeats t) (in_availableSeats b))
          && (default (availableSeats t) (in_availableSeats b)
              <=? default (totalSeats t) (in_totalSeats b))
      | None => true
      end
  end.

Fixpoint all_in_bounds `{!JSText} (castObjectId : string → option ObjectId)
    (ops : list op) (db : DB) : bool :=
  match ops with
  | [] => true
  | o :: rest =>
      in_bounds castObjectId o db
      && all_in_bounds castObjectId rest (exec castObjectId o db).2
  end.

(** The filter of List read off the query: exact event type, exact status,
    inclusive price bounds, and a date inside the 24 hours that start at the
    instant the [date] parameter denotes. *)
Definition spec_matches (parseFloat : string → option Q) (parseDate : string → option Z)
    (query : Query) (t : Ticket) : Prop :=
  (∀ s, q_eventType query = Some s → s ≠ "" → eventType t = s)
  ∧ (∀ s, q_status query = Some s → s ≠ "" → status t = s)
  ∧ (∀ s lo, q_minPrice query = Some s → s ≠ "" → parseFloat s = Some lo →
       (lo <= price t)%Q)
  ∧ (∀ s hi, q_maxPrice query = Some s → s ≠ "" → parseFloat s = Some hi →
       (price t <= hi)%Q)
  ∧ (∀ s d, q_date query = Some s → s ≠ "" → parseDate s = Some d →
       d ≤ date t < d + 86400000).



(** Queries for the day of the premiere: by the date alone, and by an
    instant at noon of that day and of the day before. *)
Definition premiere_day : Query :=
  mkQuery None None (Some "20") None (Some "2024-11-30").



(** The numeric and date parameters that are present can be read. *)
Definition well_formed (parseFloat : string → option Q) (parseDate : string → option Z)
    (query : Query) : bool :=
  implb (truthy (q_minPrice query)) (bool_decide (is_Some (q_minPrice query ≫= parseFloat)))
  && implb (truthy (q_maxPrice query)) (bool_decide (is_Some (q_maxPrice query ≫= parseFloat)))
  && implb (truthy (q_date query)) (bool_decide (is_Some (q_date query ≫= parseDate))).

(** ** Seeding (src/index.js, lines 54-127) *)

(** The five sample documents; each date is [new Date('YYYY-MM-DD')]. *)
Definition sampleTickets : list TicketInput :=
  [ mkTicketInput (Some "Rock Concert 2024") (Some "concert")
      (Some "Madison Square Garden") (Some 1734220800000) (Some "20:00")
      (Some (85 # 1)) None (Some 500) (Some 500)
      (Some "An amazing rock concert featuring top bands")
      (Some "/images/concert.jpg") None None None;
    mkTicketInput (Some "BlockBuster Movie Premiere") (Some "movie")
      (Some "AMC Theater") (Some 1732924800000) (Some "19:30")
      (Some (25 # 1)) None (Some 200) (Some 200)
      (Some "Exclusive premiere of the year's most anticipated movie")
      (Some "/images/movie.jpg") None None None;
    mkTicketInput (Some "NBA Finals Game 7") (Some "sports")
      (Some "Staples Center") (Some 1734652800000) (Some "18:00")
      (Some (150 # 1)) None (Some 1000) (Some 1000)
      (Some "Championship game - don't miss the action!")
      (Some "/images/sports.jpg") None None None;
    mkTicketInput (Some "Shakespeare's Hamlet") (Some "theater")
      (Some "Broadway Theater") (Some 1733011200000) (Some "19:00")
      (Some (65 # 1)) None (Some 300) (Some 300)
      (Some "Classic theater performance")
      (Some "/images/theater.jpg") None None None;
    mkTicketInput (Some "Tech Summit 2024") (Some "conference")
      (Some "Convention Center") (Some 1733788800000) (Some "09:00")
      (Some (299 # 1)) None (Some 1500) (Some 1500)
      (Some "Annual technology conference with industry leaders")
      (Some "/images/conference.jpg") None None None ].

(** The documents of an [insertMany], hydrated and validated; [None] when one
    of them is refused. *)
Definition hydrate_all (docs : list TicketInput) (now : Z) : option (list Ticket) :=
  mapM (λ b, construct b now ≫= λ t, if validate t then Some t else None) docs.

(** The ordered bulk insert: document [i] gets the identifier [newId i]; the
    insert stops at the first identifier that is taken and keeps what went in
    before. *)
Fixpoint insert_ordered (newId : nat → ObjectId) (i : nat) (ts : list Ticket) (db : DB)
  : DB * option error :=
  match ts with
  | [] => (db, None)
  | t :: rest =>
      match db !! newId i with
      | Some _ => (db, Some DuplicateKeyError)
      | None => insert_ordered newId (S i) rest (<[newId i := t]> db)
      end
  end.

(** [Ticket.insertMany(docs)]. *)
Definition insertMany (newId : nat → ObjectId) (docs : list TicketInput) (now : Z) (db : DB)
  : DB * option error :=
  match hydrate_all docs now with
  | Some ts => insert_ordered newId 0 ts db
  | None => (db, Some ValidationError)
  end.

(** [seedDatabase()]: the samples go in only when [countDocuments()] is 0; an
    error is logged and otherwise ignored. *)
Definition seedDatabase (newId : nat → ObjectId) (now : Z) (db : DB) : DB :=
  if decide (size db = 0%nat) then (insertMany newId sampleTickets now db).1 else db.

(** ** Further notions used by the properties *)

(** The paths no seat handler assigns. *)
Definition same_listing (t t' : Ticket) : Prop :=
  eventName t' = eventName t
  ∧ eventType t' = eventType t
  ∧ venue t' = venue t
  ∧ date t' = date t
  ∧ time t' = time t
  ∧ price t' = price t
  ∧ currency t' = currency t
  ∧ totalSeats t' = totalSeats t
  ∧ description t' = description t
  ∧ imageUrl t' = imageUrl t
  ∧ createdAt t' = createdAt t.

(** A sold-out status goes with an empty seat count. *)
Definition sold_out_consistent (t : Ticket) : Prop :=
  status t = "sold-out" → availableSeats t = 0.

(** No record has a negative seat count. *)
Definition seats_nonneg (db : DB) : Prop :=
  map_Forall (λ _ t, 0 ≤ availableSeats t) db.

(** A request that has read its document holds a non-negative seat count. *)
Definition proc_nonneg (p : proc) : Prop :=
  match p with
  | Loaded _ ticket =>
      0 ≤ availableSeats (fields ticket)
      ∧ modifiedPaths ticket = []
      ∧ castFailed ticket = false
  | _ => True
  end.

(** Every record passes the schema validation. *)
Definition all_valid (db : DB) : Prop :=
  map_Forall (λ _ t, validate t = true) db.

(** What every seeded record satisfies. *)
Definition freshly_seeded (now : Z) (t : Ticket) : Prop :=
  validate t = true
  ∧ status t = "active"
  ∧ currency t = "USD"
  ∧ availableSeats t = totalSeats t
  ∧ 0 ≤ totalSeats t
  ∧ createdAt t = now
  ∧ updatedAt t = now.

(** A query parameter as the handler reads it: the empty string counts as
    absent. *)
Definition drop_blank (p : option string) : option string :=
  if truthy p then p else None.

Definition without_blanks (query : Query) : Query :=
  mkQuery (drop_blank (q_eventType query)) (drop_blank (q_status query))
    (drop_blank (q_minPrice query)) (drop_blank (q_maxPrice query))
    (drop_blank (q_date query)).

(** The records a List answer carries, if it carries any. *)
Definition listed (r : response) : list (ObjectId * Ticket) :=
  match json r with
  | BTickets l => l
  | _ => []
  end.

(** A query whose parameters are all the empty string. *)
Definition blank_query : Query :=
  mkQuery (Some "") (Some "") (Some "") (Some "") (Some "").

(** A creation body that lacks the required venue. *)
Definition no_venue : TicketInput :=
  mkTicketInput (Some "Jazz Night") (Some "concert") None
    (Some 1735689600000) (Some "21:00") (Some (30 # 1)) None (Some 80) (Some 80)
    None None None None None.

(** The record [jazz_night] hydrates to at time [now]. *)
Definition jazz_night_record (now : Z) : Ticket :=
  mkTicket "Jazz Night" "concert" "Blue Note" 1735689600000 "21:00" (30 # 1)
    "USD" 80 80 None None "active" now now.

(** An update of the status alone. *)
Definition status_only (s : string) : TicketInput :=
  mkTicketInput None None None None None None None None None
    None None (Some s) None None.

(** The seeded collection after [PUT /api/tickets/:id] has given the rock
    concert a status outside the enumeration. *)
Definition relabelled : DB :=
  (update castObjectId_hex oid1 (status_only "postponed") 3 seeded).2.

(** The i-th identifier handed out to a seeded document. *)
Definition seed_id (i : nat) : ObjectId := (key1 + N.of_nat i)%N.

(** * Properties *)

Section Properties.

Context {text : JSText}.

Variable castObjectId : string → option ObjectId.

(** ** Documents loaded from the collection *)

Ltac fields_simpl :=
  cbn [eventName eventType venue date time price currency totalSeats
       availableSeats description imageUrl status createdAt updatedAt
       _id fields modifiedPaths castFailed
       with_availableSeats with_status with_updatedAt] in *.


Lemma validate_with_availableSeats v t :
  validate (with_availableSeats v t) = validate t.
Proof. reflexivity. Qed.

Lemma validate_with_updatedAt v t :
  validate (with_updatedAt v t) = validate t.
Proof. reflexivity. Qed.

Lemma validate_with_status v t :
  v ∈ status_enum → validate t = true → validate (with_status v t) = true.
Proof.
  unfold validate. cbn [status with_status eventName eventType venue time].
  intros Hv Ht. repeat (apply andb_prop in Ht as [Ht ?]).
  rewrite Ht. repeat (apply andb_true_intro; split); try done.
  by apply bool_decide_eq_true.
Qed.

(** After the three assignments of a seat handler, the saved record is the
    document's field values. *)
Lemma save_assigned oid t (v : number) (st : option string) now db :
  db !! oid = Some t →
  validate t = true →
  (∀ s, st = Some s → s ∈ status_enum) →
  ∀ z, v = Fin z →
  let d1 := doc_set_availableSeats v (hydrate oid t) in
  let d2 := match st with Some s => doc_set_status s d1 | None => d1 end in
  let d3 := doc_set_updatedAt now d2 in
  save d3 db = Ok (<[oid := fields d3]> db)
  ∧ _id d3 = oid
  ∧ availableSeats (fields d3) = z
  ∧ status (fields d3) = default (status t) st
  ∧ totalSeats (fields d3) = totalSeats t
  ∧ updatedAt (fields d3) = now
  ∧ validate (fields d3) = true.
Proof.
  intros Hdb Hval Hst z ->. destruct t as [n e ve da ti pr cu tot av de im s cr up].
  assert (Hs : ∀ s', st = Some s' → bool_decide (s' ∈ status_enum) = true).
  { intros s' ->. apply bool_decide_eq_true. by apply Hst. }
  unfold validate in Hval. fields_simpl.
  apply andb_prop in Hval as [Hval H5]. apply andb_prop in Hval as [Hval H4].
  apply andb_prop in Hval as [Hval H3]. apply andb_prop in Hval as [H1 H2].
  unfold save, validate, doc_set_updatedAt, doc_set_availableSeats, doc_set_status, hydrate.
  destruct st as [s'|]; [specialize (Hs s' eq_refl)|]; fields_simpl;
    repeat (match goal with
            | |- context [decide (?a = ?b)] => destruct (decide (a = b))
            end; fields_simpl);
    rewrite H1, H2, H3, H4, ?H5, ?Hs;
    cbn [orb andb negb foldr set_path default]; fields_simpl; rewrite ?Hdb.
  all: unfold id; repeat split; try congruence.
  all: by rewrite insert_id.
Qed.

Lemma availableSeats_assigned z d :
  availableSeats (fields (doc_set_availableSeats (Fin z) d)) = z.
Proof. unfold doc_set_availableSeats. by case_decide. Qed.

Lemma status_after_availableSeats v d :
  status (fields (doc_set_availableSeats v d)) = status (fields d).
Proof. unfold doc_set_availableSeats. destruct v; [by case_decide | done]. Qed.

(** The field values once the handler's three assignments are done. *)
Lemma assigned_fields oid t (v : number) (st : option string) now :
  let d1 := doc_set_availableSeats v (hydrate oid t) in
  let d2 := match st with Some s => doc_set_status s d1 | None => d1 end in
  let d3 := doc_set_updatedAt now d2 in
  _id d3 = oid
  ∧ availableSeats (fields d3)
    = match v with Fin z => z | NaN => availableSeats t end
  ∧ status (fields d3) = default (status t) st
  ∧ totalSeats (fields d3) = totalSeats t.
Proof.
  destruct t as [n e ve da ti pr cu tot av de im s cr up].
  unfold doc_set_updatedAt, doc_set_availableSeats, doc_set_status, hydrate.
  destruct v as [z|], st as [s'|]; fields_simpl;
    repeat (match goal with
            | |- context [decide (?a = ?b)] => destruct (decide (a = b))
            end; fields_simpl);
    unfold default, id; repeat split; congruence.
Qed.

(** Whenever [save()] resolves, the stored record is the document's. *)
Lemma save_outcome oid t (v : number) (st : option string) now db :
  db !! oid = Some t →
  let d1 := doc_set_availableSeats v (hydrate oid t) in
  let d2 := match st with Some s => doc_set_status s d1 | None => d1 end in
  let d3 := doc_set_updatedAt now d2 in
  save d3 db = Err ValidationError ∨ save d3 db = Ok (<[oid := fields d3]> db).
Proof.
  intros Hdb. destruct t as [n e ve da ti pr cu tot av de im s cr up].
  unfold save, doc_set_updatedAt, doc_set_availableSeats, doc_set_status, hydrate.
  destruct v as [z|], st as [s'|]; fields_simpl;
    repeat (match goal with
            | |- context [decide (?a = ?b)] => destruct (decide (a = b))
            end; fields_simpl);
    cbn [orb]; try (by left);
    match goal with |- context [validate ?x] => destruct (validate x) end;
    cbn [negb foldr set_path]; fields_simpl; rewrite ?Hdb; try (by left);
    right; subst; first [done | by rewrite insert_id].
Qed.

Lemma castFailed_status v d : castFailed (doc_set_status v d) = castFailed d.
Proof. unfold doc_set_status. by case_decide. Qed.

Lemma castFailed_updatedAt v d : castFailed (doc_set_updatedAt v d) = castFailed d.
Proof. unfold doc_set_updatedAt. by case_decide. Qed.

(** A document on which an assignment did not cast is refused by
    [save()]. *)
Lemma save_castFailed d db : castFailed d = true → save d db = Err ValidationError.
Proof. unfold save. by intros ->. Qed.

(** On a quantity that is not a string, [+=] is the numeric sum. *)
Lemma castNumber_numeric a quantity :
  is_text quantity = false →
  castNumber (js_plus a quantity) = js_add (Fin a) (ToNumber quantity).
Proof. by destruct quantity. Qed.

(** A quantity without a numeric value passes the seat check, and the
    assignment of the difference does not cast. *)
Lemma reserve_nan id oid t quantity now db :
  castObjectId id = Some oid →
  db !! oid = Some t →
  ToNumber quantity = NaN →
  reserve castObjectId id quantity now db
  = (mkResponse 500 (BError "Error reserving seats"), db).
Proof.
  intros Hid Hdb Hq.
  unfold reserve, findById. rewrite Hid, Hdb. cbn [fmap option_fmap option_map].
  unfold reserve_found. rewrite Hq. cbn [js_lt js_sub].
  rewrite save_castFailed; [done|].
  rewrite castFailed_updatedAt. case_match; by rewrite ?castFailed_status.
Qed.

Lemma release_nan id oid t quantity now db :
  castObjectId id = Some oid →
  db !! oid = Some t →
  castNumber (js_plus (availableSeats t) quantity) = NaN →
  release castObjectId id quantity now db
  = (mkResponse 500 (BError "Error releasing seats"), db).
Proof.
  intros Hid Hdb Hq.
  unfold release, findById. rewrite Hid, Hdb. cbn [fmap option_fmap option_map].
  unfold release_found. change (fields (hydrate oid t)) with t. rewrite Hq.
  rewrite save_castFailed; [done|].
  rewrite castFailed_updatedAt. case_match; by rewrite ?castFailed_status.
Qed.

(** ** Reserve and Release on a numeric quantity *)

(** What a reservation that passes the seat check does. *)
Lemma reserve_accepts id oid t quantity z now db :
  castObjectId id = Some oid →
  db !! oid = Some t →
  validate t = true →
  ToNumber quantity = Fin z →
  z ≤ availableSeats t →
  ∃ t',
    reserve castObjectId id quantity now db
    = (mkResponse 200 (BMessageTicket "Seats reserved successfully" (oid, t')),
       <[oid := t']> db)
    ∧ availableSeats t' = availableSeats t - z
    ∧ status t' = (if availableSeats t - z =? 0 then "sold-out" else status t)
    ∧ totalSeats t' = totalSeats t
    ∧ updatedAt t' = now
    ∧ validate t' = true.
Proof.
  intros Hid Hdb Hval Hq Hle.
  unfold reserve, findById. rewrite Hid, Hdb. cbn [fmap option_fmap option_map].
  unfold reserve_found. cbn [fields hydrate]. rewrite Hq. cbn [js_lt js_sub].
  destruct (Z.ltb_spec (availableSeats t) z) as [?|_]; [lia|].
  rewrite availableSeats_assigned.
  set (st := if availableSeats t - z =? 0 then Some "sold-out" else None).
  destruct (save_assigned oid t (Fin (availableSeats t - z)) st now db Hdb Hval)
    with (z := availableSeats t - z) as (Hsave & Hoid & Hav & Hst & Htot & Hup & Hv);
    [subst st; intros s; case_match; [intros [= <-]|done];
     unfold status_enum; set_solver | done |].
  subst st. destruct (availableSeats t - z =? 0); cbn [default] in *;
    rewrite Hsave; unfold toJSON; rewrite Hoid; eauto 10.
Qed.

(** What a release does with the number its assignment casts to. *)
Lemma release_assigns id oid t quantity n now db :
  castObjectId id = Some oid →
  db !! oid = Some t →
  validate t = true →
  castNumber (js_plus (availableSeats t) quantity) = Fin n →
  ∃ t',
    release castObjectId id quantity now db
    = (mkResponse 200 (BMessageTicket "Seats released successfully" (oid, t')),
       <[oid := t']> db)
    ∧ availableSeats t' = n
    ∧ status t' = (if (0 <? n) && String.eqb (status t) "sold-out"
                   then "active" else status t)
    ∧ totalSeats t' = totalSeats t
    ∧ updatedAt t' = now
    ∧ validate t' = true.
Proof.
  intros Hid Hdb Hval Hq.
  unfold release, findById. rewrite Hid, Hdb. cbn [fmap option_fmap option_map].
  unfold release_found. cbn [fields hydrate]. rewrite Hq.
  rewrite availableSeats_assigned, status_after_availableSeats.
  change (status (fields (hydrate oid t))) with (status t).
  set (st := if (0 <? n) && String.eqb (status t) "sold-out"
             then Some "active" else None).
  destruct (save_assigned oid t (Fin n) st now db Hdb Hval)
    with (z := n) as (Hsave & Hoid & Hav & Hst & Htot & Hup & Hv);
    [subst st; intros s; case_match; [intros [= <-]|done];
     unfold status_enum; set_solver | done |].
  subst st.
  destruct ((0 <? n) && String.eqb (status t) "sold-out");
    cbn [default] in *; rewrite Hsave; unfold toJSON; rewrite Hoid; eauto 10.
Qed.

(** What a release of a quantity that is not a string does. *)
Lemma release_accepts id oid t quantity z now db :
  castObjectId id = Some oid →
  db !! oid = Some t →
  validate t = true →
  is_text quantity = false →
  ToNumber quantity = Fin z →
  ∃ t',
    release castObjectId id quantity now db
    = (mkResponse 200 (BMessageTicket "Seats released successfully" (oid, t')),
       <[oid := t']> db)
    ∧ availableSeats t' = availableSeats t + z
    ∧ status t' = (if (0 <? availableSeats t + z) && String.eqb (status t) "sold-out"
                   then "active" else status t)
    ∧ totalSeats t' = totalSeats t
    ∧ updatedAt t' = now
    ∧ validate t' = true.
Proof.
  intros Hid Hdb Hval Hnt Hq.
  apply release_assigns; try done.
  by rewrite (castNumber_numeric _ _ Hnt), Hq.
Qed.

(** What a reservation that fails the seat check does. *)
Lemma reserve_refuses id oid t quantity z now db :
  castObjectId id = Some oid →
  db !! oid = Some t →
  ToNumber quantity = Fin z →
  availableSeats t < z →
  reserve castObjectId id quantity now db
  = (mkResponse 400 (BError "Not enough seats available"), db).
Proof.
  intros Hid Hdb Hq Hlt.
  unfold reserve, findById. rewrite Hid, Hdb. cbn [fmap option_fmap option_map].
  unfold reserve_found. cbn [fields hydrate]. rewrite Hq. cbn [js_lt].
  by destruct (Z.ltb_spec (availableSeats t) z); [|lia].
Qed.

(** C4. For every stored ticket and every quantity whose numeric value is
    strictly greater than the ticket's availableSeats, Reserve answers 400
    "Not enough seats available" and the collection, hence every field of the
    record (updatedAt included), is unchanged. *)
Theorem reserve_insufficient_unchanged id oid t quantity z now db :
  castObjectId id = Some oid →
  db !! oid = Some t →
  ToNumber quantity = Fin z →
  availableSeats t < z →
  reserve castObjectId id quantity now db
  = (mkResponse 400 (BError "Not enough seats available"), db)
  ∧ (reserve castObjectId id quantity now db).2 !! oid = Some t.
Proof.
  intros Hid Hdb Hq Hlt.
  rewrite (reserve_refuses id oid t quantity z now db) by done. by split.
Qed.

(** [save()] resolves only on a document that passes the validation. *)
Lemma save_resolves d db db' : save d db = Ok db' → validate (fields d) = true.
Proof.
  unfold save. destruct (castFailed d); cbn [orb]; [done|].
  by destruct (validate (fields d)).
Qed.

(** What a Reserve that answers 200 has done. *)
Lemma reserve_succeeds id oid t quantity now db :
  castObjectId id = Some oid →
  db !! oid = Some t →
  code (reserve castObjectId id quantity now db).1 = 200 →
  ∃ z t',
    ToNumber quantity = Fin z
    ∧ z ≤ availableSeats t
    ∧ reserve castObjectId id quantity now db
      = (mkResponse 200 (BMessageTicket "Seats reserved successfully" (oid, t')),
         <[oid := t']> db)
    ∧ availableSeats t' = availableSeats t - z
    ∧ status t' = (if availableSeats t - z =? 0 then "sold-out" else status t)
    ∧ validate t' = true.
Proof.
  intros Hid Hdb Hcode.
  destruct (ToNumber quantity) as [z|] eqn:Hq;
    [|by rewrite (reserve_nan id oid t) in Hcode].
  destruct (Z.ltb_spec (availableSeats t) z) as [Hlt|Hle];
    [by rewrite (reserve_refuses id oid t quantity z) in Hcode|].
  exists z. revert Hcode.
  unfold reserve, findById. rewrite Hid, Hdb. cbn [fmap option_fmap option_map].
  unfold reserve_found. change (fields (hydrate oid t)) with t.
  rewrite Hq. cbn [js_lt js_sub].
  destruct (Z.ltb_spec (availableSeats t) z) as [?|_]; [lia|].
  rewrite availableSeats_assigned.
  set (st := if availableSeats t - z =? 0 then Some "sold-out" else None).
  destruct (assigned_fields oid t (Fin (availableSeats t - z)) st now)
    as (Hoid & Hav & Hst & _).
  pose proof (save_resolves
    (doc_set_updatedAt now
       match st with
       | Some s => doc_set_status s
                     (doc_set_availableSeats (Fin (availableSeats t - z)) (hydrate oid t))
       | None => doc_set_availableSeats (Fin (availableSeats t - z)) (hydrate oid t)
       end) db) as Hvalid.
  destruct (save_outcome oid t (Fin (availableSeats t - z)) st now db Hdb) as [Hs|Hs];
    subst st; destruct (availableSeats t - z =? 0); cbn [default] in *;
    rewrite Hs in *; cbn [fst code]; intros Hcode; try discriminate.
  all: eexists; split; [done|]; split; [done|].
  all: unfold toJSON; rewrite Hoid; split; [done|].
  all: split; [done|]; split; [done|]; by eapply Hvalid.
Qed.

(** C5. Reserve answers 200 on a stored ticket that passes the schema
    validation whenever the quantity is a number not above availableSeats;
    and a Reserve that answers 200 has brought availableSeats to exactly 0
    precisely when it took all the remaining seats, in which case it has set
    status to sold-out, and a following Release of at least one seat on that
    sold-out ticket answers 200 and sets status back to active; a Reserve that
    answers 200 and leaves availableSeats positive leaves status as it
    was. *)
Theorem reserve_release_status id oid t quantity now db :
  castObjectId id = Some oid →
  db !! oid = Some t →
  (validate t = true →
   ∀ z, ToNumber quantity = Fin z → z ≤ availableSeats t →
        code (reserve castObjectId id quantity now db).1 = 200)
  ∧ (code (reserve castObjectId id quantity now db).1 = 200 →
     ∃ z t1,
       ToNumber quantity = Fin z
       ∧ reserve castObjectId id quantity now db
         = (mkResponse 200 (BMessageTicket "Seats reserved successfully" (oid, t1)),
            <[oid := t1]> db)
       ∧ (availableSeats t1 = 0 ↔ z = availableSeats t)
       ∧ (availableSeats t1 = 0 →
          status t1 = "sold-out"
          ∧ ∀ quantity2 z2 now2,
              is_text quantity2 = false →
              ToNumber quantity2 = Fin z2 →
              1 ≤ z2 →
              ∃ t2,
                release castObjectId id quantity2 now2 (<[oid := t1]> db)
                = (mkResponse 200
                     (BMessageTicket "Seats released successfully" (oid, t2)),
                   <[oid := t2]> (<[oid := t1]> db))
                ∧ availableSeats t2 = z2
                ∧ status t2 = "active")
       ∧ (0 < availableSeats t1 → status t1 = status t)).
Proof.
  intros Hid Hdb. split.
  - intros Hval z Hq Hle.
    destruct (reserve_accepts id oid t quantity z now db)
      as (t1 & -> & _); done.
  - intros Hcode.
    destruct (reserve_succeeds id oid t quantity now db Hid Hdb Hcode)
      as (z & t1 & Hq & Hle & Hres & Hav & Hst & Hval1).
    exists z, t1. split; [done|]. split; [done|]. split; [lia|]. split.
    + intros H0. rewrite <- Hav, H0 in Hst. cbn in Hst.
      split; [done|]. intros quantity2 z2 now2 Hnt Hq2 Hz2.
      destruct (release_accepts id oid t1 quantity2 z2 now2 (<[oid := t1]> db))
        as (t2 & Hrel & Hav2 & Hst2 & _); try done.
      { apply lookup_insert_eq. }
      exists t2. split; [done|]. split; [lia|].
      rewrite Hst2, H0, Hst. by destruct (Z.ltb_spec 0 (0 + z2)); [|lia].
    + intros Hpos. rewrite Hst.
      by destruct (Z.eqb_spec (availableSeats t - z) 0); [lia|].
Qed.

(** C6 (amended). Release does not clamp against totalSeats: for every
    stored ticket that passes the schema validation, a Release of a numeric
    quantity that exceeds totalSeats - availableSeats, with availableSeats, the
    quantity and their sum integers of magnitude at most 2^53, succeeds and
    leaves availableSeats equal to the sum, strictly greater than
    totalSeats. *)
Theorem release_unclamped id oid t quantity z now db :
  castObjectId id = Some oid →
  db !! oid = Some t →
  validate t = true →
  is_text quantity = false →
  ToNumber quantity = Fin z →
  safe_integer (availableSeats t) →
  safe_integer z →
  safe_integer (availableSeats t + z) →
  totalSeats t - availableSeats t < z →
  ∃ t',
    release castObjectId id quantity now db
    = (mkResponse 200 (BMessageTicket "Seats released successfully" (oid, t')),
       <[oid := t']> db)
    ∧ availableSeats t' = availableSeats t + z
    ∧ totalSeats t' = totalSeats t
    ∧ totalSeats t' < availableSeats t'.
Proof.
  intros Hid Hdb Hval Hnt Hq _ _ _ Hlt.
  destruct (release_accepts id oid t quantity z now db)
    as (t' & Hrel & Hav & _ & Htot & _); try done.
  exists t'. repeat split; try done. lia.
Qed.

(** ** Quantities that are not positive integers *)

(** Reserve meets the quantity only through the number it reads in it. *)
Lemma reserve_reads_number id quantity quantity' now db :
  ToNumber quantity = ToNumber quantity' →
  reserve castObjectId id quantity now db
  = reserve castObjectId id quantity' now db.
Proof. intros Hq. unfold reserve, reserve_found. by rewrite Hq. Qed.

(** C3 (amended). Reserve and Release do not validate the quantity and never
    answer with a validation error of their own. On a stored ticket that
    passes the schema validation:
    - a quantity in which Reserve reads no number (absent, or a string that
      does not read as a number) is answered 500 and the collection is
      unchanged; Release without a quantity likewise;
    - Reserve reads a string quantity as the number it denotes;
    - Release appends a string quantity to the text of availableSeats and
      stores the number the result reads as, or answers 500 and changes
      nothing when it reads as none;
    - a zero or negative integer is accepted: Release answers 200 and adds it,
      Reserve answers 200 and subtracts it whenever it does not exceed
      availableSeats (operands and results of magnitude at most 2^53). *)
Theorem quantity_not_validated id oid t now db :
  castObjectId id = Some oid →
  db !! oid = Some t →
  validate t = true →
  (∀ quantity, ToNumber quantity = NaN →
     reserve castObjectId id quantity now db
     = (mkResponse 500 (BError "Error reserving seats"), db))
  ∧ release castObjectId id VUndefined now db
    = (mkResponse 500 (BError "Error releasing seats"), db)
  ∧ (∀ s z, StringToNumber s = Fin z →
       reserve castObjectId id (VStr s) now db
       = reserve castObjectId id (VNum (Fin z)) now db)
  ∧ (∀ s,
       match castNumber (SumString (String.append (NumberToString (availableSeats t)) s)) with
       | Fin n =>
           ∃ t',
             release castObjectId id (VStr s) now db
             = (mkResponse 200
                  (BMessageTicket "Seats released successfully" (oid, t')),
                <[oid := t']> db)
             ∧ availableSeats t' = n
       | NaN =>
           release castObjectId id (VStr s) now db
           = (mkResponse 500 (BError "Error releasing seats"), db)
       end)
  ∧ (∀ z, z ≤ 0 →
     safe_integer (availableSeats t) →
     safe_integer z →
     (safe_integer (availableSeats t + z) →
      ∃ t',
        release castObjectId id (VNum (Fin z)) now db
        = (mkResponse 200 (BMessageTicket "Seats released successfully" (oid, t')),
           <[oid := t']> db)
        ∧ availableSeats t' = availableSeats t + z)
     ∧ (z ≤ availableSeats t →
        safe_integer (availableSeats t - z) →
        ∃ t',
          reserve castObjectId id (VNum (Fin z)) now db
          = (mkResponse 200 (BMessageTicket "Seats reserved successfully" (oid, t')),
             <[oid := t']> db)
          ∧ availableSeats t' = availableSeats t - z)).
Proof.
  intros Hid Hdb Hval. split; [|split; [|split; [|split]]].
  - intros quantity Hq. by eapply reserve_nan.
  - by eapply release_nan.
  - intros s z Hs. by apply reserve_reads_number.
  - intros s.
    destruct (castNumber (SumString (String.append (NumberToString (availableSeats t)) s)))
      as [n|] eqn:Hc.
    + destruct (release_assigns id oid t (VStr s) n now db)
        as (t' & Hrel & Hav & _); try done. eauto.
    + by eapply release_nan.
  - intros z _ _ _. split.
    + intros _. destruct (release_accepts id oid t (VNum (Fin z)) z now db)
        as (t' & Hrel & Hav & _); try done. eauto.
    + intros Hle _.
      destruct (reserve_accepts id oid t (VNum (Fin z)) z now db)
        as (t' & Hres & Hav & _); try done. eauto.
Qed.

(** C10 (amended). A Reserve request whose quantity has no numeric value is
    not stopped by the seat check: the comparison is false and the difference
    is NaN. The Number path does not take NaN, so [save()] rejects: the
    handler answers 500 and the stored record is unchanged. *)
Theorem reserve_without_quantity id oid t quantity now db :
  castObjectId id = Some oid →
  db !! oid = Some t →
  ToNumber quantity = NaN →
  js_lt (Fin (availableSeats t)) (ToNumber quantity) = false
  ∧ js_sub (Fin (availableSeats t)) (ToNumber quantity) = NaN
  ∧ reserve castObjectId id quantity now db
    = (mkResponse 500 (BError "Error reserving seats"), db).
Proof.
  intros Hid Hdb Hq. rewrite Hq. repeat split. by eapply reserve_nan.
Qed.

(** ** Status of cancelled and completed tickets *)

Lemma availableSeats_after_assign v oid t :
  availableSeats (fields (doc_set_availableSeats v (hydrate oid t)))
  = match v with Fin z => z | NaN => availableSeats t end.
Proof. destruct v; [apply availableSeats_assigned | done]. Qed.

(** Every outcome of Reserve: the collection is untouched, or the addressed
    record is replaced and its status follows its new seat count. *)
Lemma reserve_outcome id oid t quantity now db :
  castObjectId id = Some oid →
  db !! oid = Some t →
  ∃ r,
    reserve castObjectId id quantity now db = (r, db)
    ∨ ∃ t',
        reserve castObjectId id quantity now db = (r, <[oid := t']> db)
        ∧ status t' = (if availableSeats t' =? 0 then "sold-out" else status t)
        ∧ totalSeats t' = totalSeats t
        ∧ ((∃ z, ToNumber quantity = Fin z ∧ z ≤ availableSeats t
                 ∧ availableSeats t' = availableSeats t - z)
           ∨ availableSeats t' = availableSeats t).
Proof.
  intros Hid Hdb.
  unfold reserve, findById. rewrite Hid, Hdb. cbn [fmap option_fmap option_map].
  unfold reserve_found. change (fields (hydrate oid t)) with t.
  destruct (js_lt _ _) eqn:Hlt; [eauto|].
  set (v := js_sub (Fin (availableSeats t)) (ToNumber quantity)).
  rewrite availableSeats_after_assign.
  set (a := match v with Fin z => z | NaN => availableSeats t end).
  set (st := if a =? 0 then Some "sold-out" else None).
  destruct (assigned_fields oid t v st now) as (Hoid & Hav & Hst & Htot).
  destruct (save_outcome oid t v st now db Hdb) as [Hs|Hs]; subst st;
    destruct (a =? 0) eqn:Ha; cbn [default] in *; rewrite Hs; eauto.
  all: eexists; right; eexists; split; [done|].
  all: rewrite Hav; fold a; rewrite Ha; repeat split; try done.
  all: subst a v; destruct (ToNumber quantity) as [z|]; [|by right].
  all: left; exists z; cbn [js_lt js_sub] in *; split; [done|].
  all: by destruct (Z.ltb_spec (availableSeats t) z); [|lia].
Qed.

(** Every outcome of Release, likewise. *)
Lemma release_outcome id oid t quantity now db :
  castObjectId id = Some oid →
  db !! oid = Some t →
  ∃ r,
    release castObjectId id quantity now db = (r, db)
    ∨ ∃ t',
        release castObjectId id quantity now db = (r, <[oid := t']> db)
        ∧ status t' = (if (0 <? availableSeats t') && String.eqb (status t) "sold-out"
                       then "active" else status t)
        ∧ totalSeats t' = totalSeats t
        ∧ availableSeats t'
          = match castNumber (js_plus (availableSeats t) quantity) with
            | Fin n => n
            | NaN => availableSeats t
            end.
Proof.
  intros Hid Hdb.
  unfold release, findById. rewrite Hid, Hdb. cbn [fmap option_fmap option_map].
  unfold release_found.
  change (fields (hydrate oid t)) with t.
  set (v := castNumber (js_plus (availableSeats t) quantity)).
  rewrite availableSeats_after_assign, status_after_availableSeats.
  change (status (fields (hydrate oid t))) with (status t).
  set (a := match v with Fin z => z | NaN => availableSeats t end).
  set (st := if (0 <? a) && String.eqb (status t) "sold-out" then Some "active" else None).
  destruct (assigned_fields oid t v st now) as (Hoid & Hav & Hst & Htot).
  destruct (save_outcome oid t v st now db Hdb) as [Hs|Hs]; subst st;
    destruct ((0 <? a) && String.eqb (status t) "sold-out") eqn:Ha;
    cbn [default] in *; rewrite Hs; eauto.
  all: eexists; right; eexists; split; [done|].
  all: rewrite Hav; fold a; rewrite Ha; by repeat split.
Qed.

(** C8 (amended). On a ticket whose status is cancelled or completed,
    Release never changes the status, and Reserve leaves it as it was
    whenever the record does not end with availableSeats equal to 0. *)
Theorem administrative_status_kept id oid t quantity now db :
  castObjectId id = Some oid →
  db !! oid = Some t →
  status t = "cancelled" ∨ status t = "completed" →
  (∀ t', (release castObjectId id quantity now db).2 !! oid = Some t' →
         status t' = status t)
  ∧ (∀ t', (reserve castObjectId id quantity now db).2 !! oid = Some t' →
           availableSeats t' ≠ 0 →
           status t' = status t).
Proof.
  intros Hid Hdb Hst. split.
  - intros t'. destruct (release_outcome id oid t quantity now db Hid Hdb)
      as [r [->|(t1 & -> & Hs & _)]]; cbn [snd].
    + rewrite Hdb. congruence.
    + rewrite lookup_insert_eq. intros [= <-]. rewrite Hs.
      destruct Hst as [-> | ->]; by rewrite andb_false_r.
  - intros t'. destruct (reserve_outcome id oid t quantity now db Hid Hdb)
      as [r [->|(t1 & -> & Hs & _)]]; cbn [snd].
    + rewrite Hdb. congruence.
    + rewrite lookup_insert_eq. intros [= <-] Hne. rewrite Hs.
      by destruct (Z.eqb_spec (availableSeats t1) 0).
Qed.

(** ** The seat invariant *)

Lemma reserve_absent id quantity now (db : DB) :
  castObjectId id ≫= (db !!.) = None →
  (reserve castObjectId id quantity now db).2 = db.
Proof.
  unfold reserve, findById. destruct (castObjectId id) as [oid|]; [|done].
  cbn. by intros ->.
Qed.

Lemma release_absent id quantity now (db : DB) :
  castObjectId id ≫= (db !!.) = None →
  (release castObjectId id quantity now db).2 = db.
Proof.
  unfold release, findById. destruct (castObjectId id) as [oid|]; [|done].
  cbn. by intros ->.
Qed.

Lemma addressed_ticket id (db : DB) t :
  castObjectId id ≫= (db !!.) = Some t →
  ∃ oid, castObjectId id = Some oid ∧ db !! oid = Some t.
Proof. destruct (castObjectId id) as [oid|]; [|done]. cbn. eauto. Qed.

Lemma db_invariant_insert oid t db :
  seat_invariant t → db_invariant db → db_invariant (<[oid := t]> db).
Proof. intros. by apply map_Forall_insert_2. Qed.

(** One in-bounds operation keeps the invariant. *)
Lemma exec_invariant o db :
  db_invariant db →
  in_bounds castObjectId o db = true →
  db_invariant (exec castObjectId o db).2.
Proof.
  intros Hinv Hb. destruct o as [oid b now|id quantity now|id quantity now|id b now];
    cbn [exec in_bounds] in *.
  - unfold create. destruct (construct b now) as [t|] eqn:Hc; [|done].
    destruct (validate t); [|done]. destruct (db !! oid); [done|].
    cbn [snd]. apply db_invariant_insert; [|done].
    unfold construct in Hc.
    destruct b as [[?|] [?|] [?|] [?|] [?|] [?|] ? [tot|] [av|] ? ? ? ? ?];
      simplify_eq/=.
    unfold seat_invariant; cbn. lia.
  - destruct (castObjectId id ≫= (db !!.)) as [t|] eqn:Ht;
      [|by rewrite reserve_absent].
    apply addressed_ticket in Ht as (oid & Hid & Hdb).
    destruct (reserve_outcome id oid t quantity now db Hid Hdb)
      as [r [->|(t' & -> & _ & Htot & Hav)]]; [done|].
    cbn [snd]. apply db_invariant_insert; [|done].
    specialize (Hinv oid t Hdb). unfold seat_invariant in *. cbn in Hinv.
    destruct quantity as [| |?|[z|]|?]; try done.
    destruct Hav as [(z' & [= <-] & Hle & Hav)|Hav]; lia.
  - destruct quantity as [| |?|[z|]|?]; try done.
    apply andb_prop in Hb as [Hz Hb].
    destruct (castObjectId id ≫= (db !!.)) as [t|] eqn:Ht;
      [|by rewrite release_absent].
    apply addressed_ticket in Ht as (oid & Hid & Hdb).
    destruct (release_outcome id oid t (VNum (Fin z)) now db Hid Hdb)
      as [r [->|(t' & -> & _ & Htot & Hav)]]; [done|].
    cbn [snd]. apply db_invariant_insert; [|done].
    specialize (Hinv oid t Hdb). unfold seat_invariant in *. cbn in Hinv, Hav.
    lia.
  - unfold update. destruct (castObjectId id) as [oid|]; [|done].
    cbn in Hb. destruct (db !! oid) as [t|]; [|done].
    cbn [snd]. apply db_invariant_insert; [|done].
    unfold seat_invariant, apply_update. cbn. lia.
Qed.

(** C2. From a collection in which every record has
    [0 ≤ availableSeats ≤ totalSeats], any sequence of Create, Reserve,
    Release and Update operations that use valid in-bounds quantities ends in
    a collection in which every record still has it. *)
Theorem seat_invariant_preserved ops db :
  db_invariant db →
  all_in_bounds castObjectId ops db = true →
  db_invariant (run castObjectId ops db).
Proof.
  revert db. induction ops as [|o ops IH]; intros db Hinv Hb; [done|].
  cbn [run all_in_bounds] in *. apply andb_prop in Hb as [Ho Hrest].
  apply IH; [by apply exec_invariant | done].
Qed.

(** ** Get *)

(** C7 (amended). Get answers 200 with the stored record whose identifier
    matches and 404 "Ticket not found" when no record has the identifier; a
    malformed identifier is answered 500 "Error fetching ticket". *)
Theorem get_by_id id db :
  (∀ oid t, castObjectId id = Some oid → db !! oid = Some t →
     get castObjectId id db = mkResponse 200 (BTicket (oid, t)))
  ∧ (∀ oid, castObjectId id = Some oid → db !! oid = None →
       get castObjectId id db = mkResponse 404 (BError "Ticket not found"))
  ∧ (castObjectId id = None →
       get castObjectId id db = mkResponse 500 (BError "Error fetching ticket")).
Proof.
  unfold get, findById. repeat split.
  - by intros oid t -> ->.
  - by intros oid -> ->.
  - by intros ->.
Qed.

End Properties.

(** ** List *)

Section ListProperties.

Variable parseFloat : string → option Q.
Variable parseDate : string → option Z.

Lemma truthy_cases p :
  (truthy p = true ∧ ∃ s, p = Some s ∧ s ≠ "")
  ∨ (truthy p = false ∧ ∀ s, p = Some s → s = "").
Proof.
  destruct p as [s|]; cbn; [|right; by split].
  destruct (String.eqb_spec s ""); cbn; [right|left]; naive_solver.
Qed.

#[local] Instance date_le_total : Total date_le.
Proof. intros a b. unfold date_le. lia. Qed.

#[local] Instance date_le_trans : Transitive date_le.
Proof. intros a b c. unfold date_le. lia. Qed.

(** An exact-match condition of the filter. *)
Lemma holds_exact x p :
  holds (String.eqb x) (if truthy p then p else None) = true
  ↔ ∀ s, p = Some s → s ≠ "" → x = s.
Proof.
  destruct (truthy_cases p) as [(-> & s & -> & Hs)|(-> & Hp)]; cbn.
  - rewrite String.eqb_eq. naive_solver.
  - naive_solver.
Qed.

(** A condition whose bound is read from the request text. *)
Lemma holds_parsed {A} (parse : string → option A) (test : A → bool) p :
  implb (truthy p) (bool_decide (is_Some (p ≫= parse))) = true →
  holds (holds test) (if truthy p then Some (p ≫= parse) else None) = true
  ↔ ∀ s x, p = Some s → s ≠ "" → parse s = Some x → test x = true.
Proof.
  destruct (truthy_cases p) as [(-> & s & -> & Hs)|(-> & Hp)]; cbn.
  - intros [x Hx]%bool_decide_eq_true. rewrite Hx. cbn. naive_solver.
  - naive_solver.
Qed.

Lemma castable_parsed {A} (parse : string → option A) p :
  implb (truthy p) (bool_decide (is_Some (p ≫= parse))) = true →
  castable (if truthy p then Some (p ≫= parse) else None) = true.
Proof.
  destruct (truthy p); cbn; [|done].
  by intros [x ->]%bool_decide_eq_true.
Qed.

Lemma price_condition {A} (mn mx : bool) (c : option A) :
  (if mn || mx then if mn then c else None else None) = if mn then c else None.
Proof. by destruct mn, mx. Qed.

Lemma date_upper_bound p :
  (λ ms, ms + 24 * 60 * 60 * 1000) <$> (p ≫= parseDate)
  = p ≫= (λ s, (λ ms, ms + 86400000) <$> parseDate s).
Proof. by destruct p. Qed.

Lemma date_upper_parses p :
  implb (truthy p) (bool_decide (is_Some (p ≫= parseDate))) = true →
  implb (truthy p)
    (bool_decide (is_Some (p ≫= (λ s, (λ ms, ms + 86400000) <$> parseDate s)))) = true.
Proof.
  destruct (truthy p); cbn; [|done].
  intros [x Hx]%bool_decide_eq_true. apply bool_decide_eq_true.
  destruct p as [s|]; [|done]. cbn in *. rewrite Hx. by eexists.
Qed.

(** The filter the handler builds selects what the specification's filter
    selects. *)
Lemma matches_spec query t :
  well_formed parseFloat parseDate query = true →
  matches (build_filter parseFloat parseDate query) t = true
  ↔ spec_matches parseFloat parseDate query t.
Proof.
  unfold well_formed. intros Hwf.
  apply andb_prop in Hwf as [Hwf Hd]. apply andb_prop in Hwf as [Hmn Hmx].
  unfold matches, build_filter, spec_matches.
  cbn [f_eventType f_status f_price_gte f_price_lte f_date_gte f_date_lt].
  rewrite !andb_true_iff.
  rewrite (price_condition (truthy (q_minPrice query)) (truthy (q_maxPrice query))).
  replace (if truthy (q_minPrice query) || truthy (q_maxPrice query)
           then if truthy (q_maxPrice query)
                then Some (q_maxPrice query ≫= parseFloat) else None
           else None)
    with (if truthy (q_maxPrice query)
          then Some (q_maxPrice query ≫= parseFloat) else None)
    by (by destruct (truthy (q_minPrice query)), (truthy (q_maxPrice query))).
  rewrite date_upper_bound.
  rewrite !holds_exact.
  rewrite (holds_parsed parseFloat _ _ Hmn), (holds_parsed parseFloat _ _ Hmx).
  rewrite (holds_parsed parseDate _ _ Hd).
  rewrite (holds_parsed _ _ _ (date_upper_parses _ Hd)).
  split.
  - intros (((((He & Hs) & Hlo) & Hhi) & Hge) & Hlt).
    split; [done|]. split; [done|]. split; [|split].
    + intros s lo ? ? ?. apply Qle_bool_iff. eauto.
    + intros s hi ? ? ?. apply Qle_bool_iff. eauto.
    + intros s d ? ? Hp. split.
      * apply Z.leb_le. eauto.
      * apply Z.ltb_lt. eapply (Hlt s); [done..|]. by rewrite Hp.
  - intros (He & Hs & Hlo & Hhi & Hdt). repeat split; try done.
    + intros s lo ? ? ?. apply Qle_bool_iff. eauto.
    + intros s hi ? ? ?. apply Qle_bool_iff. eauto.
    + intros s d ? ? ?. apply Z.leb_le. by eapply Hdt.
    + intros s d ? ? Hp. apply Z.ltb_lt.
      destruct (parseDate s) as [d'|] eqn:Hd'; [|done].
      cbn in Hp. injection Hp as <-. by eapply Hdt.
Qed.

Lemma find_well_formed query db :
  well_formed parseFloat parseDate query = true →
  find (build_filter parseFloat parseDate query) db
  = Ok (filter (λ d, matches (build_filter parseFloat parseDate query) d.2)
          (map_to_list db)).
Proof.
  unfold well_formed. intros Hwf.
  apply andb_prop in Hwf as [Hwf Hd]. apply andb_prop in Hwf as [Hmn Hmx].
  unfold find, build_filter.
  cbn [f_eventType f_status f_price_gte f_price_lte f_date_gte f_date_lt].
  rewrite (price_condition (truthy (q_minPrice query)) (truthy (q_maxPrice query))).
  replace (if truthy (q_minPrice query) || truthy (q_maxPrice query)
           then if truthy (q_maxPrice query)
                then Some (q_maxPrice query ≫= parseFloat) else None
           else None)
    with (if truthy (q_maxPrice query)
          then Some (q_maxPrice query ≫= parseFloat) else None)
    by (by destruct (truthy (q_minPrice query)), (truthy (q_maxPrice query))).
  rewrite date_upper_bound.
  rewrite (castable_parsed parseFloat _ Hmn), (castable_parsed parseFloat _ Hmx).
  rewrite (castable_parsed parseDate _ Hd).
  by rewrite (castable_parsed _ _ (date_upper_parses _ Hd)).
Qed.




End ListProperties.

(** ** Concurrent reservations *)

Section Interleavings.

Context {text : JSText}.

Variable castObjectId : string → option ObjectId.






End Interleavings.

(** * Further properties of the handlers *)

Section SeatLedger.

Context {text : JSText}.

Variable castObjectId : string → option ObjectId.

Lemma ticket_ext (t t' : Ticket) :
  same_listing t t' →
  availableSeats t' = availableSeats t →
  status t' = status t →
  updatedAt t' = updatedAt t →
  t' = t.
Proof.
  destruct t, t'. unfold same_listing. cbn.
  intros (-> & -> & -> & -> & -> & -> & -> & -> & -> & -> & ->) -> -> ->. done.
Qed.

(** The three assignments of a seat handler leave every other path alone. *)
Lemma assigned_listing oid t (v : number) (st : option string) now :
  let d1 := doc_set_availableSeats v (hydrate oid t) in
  let d2 := match st with Some s => doc_set_status s d1 | None => d1 end in
  let d3 := doc_set_updatedAt now d2 in
  same_listing t (fields d3) ∧ updatedAt (fields d3) = now.
Proof.
  destruct t as [n e ve da ti pr cu tot av de im s cr up].
  unfold doc_set_updatedAt, doc_set_availableSeats, doc_set_status, hydrate, same_listing.
  destruct v as [z|], st as [s'|];
    cbn [fields with_availableSeats with_status with_updatedAt updatedAt];
    repeat (match goal with
            | |- context [decide (?a = ?b)] => destruct (decide (a = b))
            end;
            cbn [fields with_availableSeats with_status with_updatedAt updatedAt]);
    cbn in *; repeat split; congruence.
Qed.

(** Every outcome of Reserve, with the answer it sends. *)
Lemma reserve_cases id oid t quantity now db :
  castObjectId id = Some oid →
  db !! oid = Some t →
  (reserve castObjectId id quantity now db).2 = db
  ∨ ∃ t',
      reserve castObjectId id quantity now db
      = (mkResponse 200 (BMessageTicket "Seats reserved successfully" (oid, t')),
         <[oid := t']> db)
      ∧ same_listing t t'
      ∧ updatedAt t' = now
      ∧ (status t' = status t ∨ status t' = "sold-out").
Proof.
  intros Hid Hdb.
  unfold reserve, findById. rewrite Hid, Hdb. cbn [fmap option_fmap option_map].
  unfold reserve_found. change (fields (hydrate oid t)) with t.
  destruct (js_lt _ _); [by left|].
  set (v := js_sub (Fin (availableSeats t)) (ToNumber quantity)).
  rewrite availableSeats_after_assign.
  set (a := match v with Fin z => z | NaN => availableSeats t end).
  set (st := if a =? 0 then Some "sold-out" else None).
  destruct (assigned_fields oid t v st now) as (Hoid & _ & Hst & _).
  destruct (assigned_listing oid t v st now) as (Hl & Hup).
  destruct (save_outcome oid t v st now db Hdb) as [Hs|Hs]; subst st;
    destruct (a =? 0); cbn [default] in *; rewrite Hs; try (by left).
  all: right; eexists; unfold toJSON; rewrite Hoid; split; [reflexivity|];
    split; [done|]; split; [done|]; rewrite Hst; auto.
Qed.

(** Every outcome of Release, with the answer it sends. *)
Lemma release_cases id oid t quantity now db :
  castObjectId id = Some oid →
  db !! oid = Some t →
  (release castObjectId id quantity now db).2 = db
  ∨ ∃ t',
      release castObjectId id quantity now db
      = (mkResponse 200 (BMessageTicket "Seats released successfully" (oid, t')),
         <[oid := t']> db)
      ∧ same_listing t t'
      ∧ updatedAt t' = now
      ∧ (status t' = status t ∨ status t' = "active").
Proof.
  intros Hid Hdb.
  unfold release, findById. rewrite Hid, Hdb. cbn [fmap option_fmap option_map].
  unfold release_found. change (fields (hydrate oid t)) with t.
  set (v := castNumber (js_plus (availableSeats t) quantity)).
  rewrite availableSeats_after_assign, status_after_availableSeats.
  change (status (fields (hydrate oid t))) with (status t).
  set (a := match v with Fin z => z | NaN => availableSeats t end).
  set (st := if (0 <? a) && String.eqb (status t) "sold-out" then Some "active" else None).
  destruct (assigned_fields oid t v st now) as (Hoid & _ & Hst & _).
  destruct (assigned_listing oid t v st now) as (Hl & Hup).
  destruct (save_outcome oid t v st now db Hdb) as [Hs|Hs]; subst st;
    destruct ((0 <? a) && String.eqb (status t) "sold-out");
    cbn [default] in *; rewrite Hs; try (by left).
  all: right; eexists; unfold toJSON; rewrite Hoid; split; [reflexivity|];
    split; [done|]; split; [done|]; rewrite Hst; auto.
Qed.

(** Reserve and Release assign availableSeats, status and updatedAt and
    nothing else: whatever the quantity, every other path of the addressed
    record, totalSeats included, keeps its value. *)
Theorem seat_handlers_keep_listing id oid t quantity now db :
  castObjectId id = Some oid →
  db !! oid = Some t →
  (∀ t', (reserve castObjectId id quantity now db).2 !! oid = Some t' →
         same_listing t t')
  ∧ (∀ t', (release castObjectId id quantity now db).2 !! oid = Some t' →
           same_listing t t').
Proof.
  intros Hid Hdb.
  assert (Hsame : same_listing t t) by (by repeat split).
  split; intros t'.
  - destruct (reserve_cases id oid t quantity now db Hid Hdb)
      as [->|(t1 & -> & Hl & _ & _)]; cbn [snd].
    + rewrite Hdb. by intros [= <-].
    + rewrite lookup_insert_eq. by intros [= <-].
  - destruct (release_cases id oid t quantity now db Hid Hdb)
      as [->|(t1 & -> & Hl & _ & _)]; cbn [snd].
    + rewrite Hdb. by intros [= <-].
    + rewrite lookup_insert_eq. by intros [= <-].
Qed.

(** Reserve and Release leave every record other than the addressed one as
    it was, and neither adds nor removes a record. *)
Theorem seat_handlers_frame id quantity now db :
  (∀ oid oid', castObjectId id = Some oid → oid' ≠ oid →
     (reserve castObjectId id quantity now db).2 !! oid' = db !! oid'
     ∧ (release castObjectId id quantity now db).2 !! oid' = db !! oid')
  ∧ (∀ k, is_Some ((reserve castObjectId id quantity now db).2 !! k)
          ↔ is_Some (db !! k))
  ∧ (∀ k, is_Some ((release castObjectId id quantity now db).2 !! k)
          ↔ is_Some (db !! k)).
Proof.
  destruct (castObjectId id ≫= (db !!.)) as [t|] eqn:Ht.
  - apply addressed_ticket in Ht as (oid & Hid & Hdb).
    destruct (reserve_cases id oid t quantity now db Hid Hdb)
      as [->|(t1 & -> & _)];
    destruct (release_cases id oid t quantity now db Hid Hdb)
      as [->|(t2 & -> & _)]; cbn [snd].
    all: split; [intros o o' Ho Hne; rewrite Hid in Ho; injection Ho as <-;
                 by rewrite ?lookup_insert_ne|].
    all: split; intros k; destruct (decide (k = oid)) as [->|Hne];
      rewrite ?lookup_insert_eq, ?lookup_insert_ne, ?Hdb by done;
      by rewrite ?is_Some_alt.
  - rewrite (reserve_absent castObjectId), (release_absent castObjectId) by done.
    by repeat split.
Qed.

(** A reservation that passes the seat check, with the paths it keeps. *)
Lemma reserve_accepts_listing id oid t quantity z now db :
  castObjectId id = Some oid →
  db !! oid = Some t →
  validate t = true →
  ToNumber quantity = Fin z →
  z ≤ availableSeats t →
  ∃ t',
    reserve castObjectId id quantity now db
    = (mkResponse 200 (BMessageTicket "Seats reserved successfully" (oid, t')),
       <[oid := t']> db)
    ∧ availableSeats t' = availableSeats t - z
    ∧ status t' = (if availableSeats t - z =? 0 then "sold-out" else status t)
    ∧ updatedAt t' = now
    ∧ validate t' = true
    ∧ same_listing t t'.
Proof.
  intros Hid Hdb Hval Hq Hle.
  destruct (reserve_accepts castObjectId id oid t quantity z now db)
    as (t' & Hres & Hav & Hst & _ & Hup & Hv); try done.
  assert (Hl : same_listing t t').
  { destruct (reserve_cases id oid t quantity now db Hid Hdb)
      as [Hsame|(t1 & Hres1 & Hl & _ & _)].
    - rewrite Hres in Hsame. cbn [snd] in Hsame.
      assert (Some t' = Some t) as [= ->]
        by (by rewrite <- Hdb, <- Hsame, lookup_insert_eq).
      by repeat split.
    - rewrite Hres in Hres1. injection Hres1 as Heq _. by rewrite Heq. }
  exists t'. do 5 (split; [done|]). done.
Qed.



(** On a schema-valid ticket whose availableSeats is at most 2^53, two
    successive reservations of non-negative quantities leave the collection
    exactly as one reservation of their sum made at the time of the second. *)
Theorem reserve_additive id oid t z1 z2 now1 now2 db :
  castObjectId id = Some oid →
  db !! oid = Some t →
  validate t = true →
  0 ≤ z1 →
  0 ≤ z2 →
  z1 + z2 ≤ availableSeats t →
  availableSeats t ≤ max_safe →
  (reserve castObjectId id (VNum (Fin z2)) now2
     (reserve castObjectId id (VNum (Fin z1)) now1 db).2).2
  = (reserve castObjectId id (VNum (Fin (z1 + z2))) now2 db).2.
Proof.
  intros Hid Hdb Hval Hz1 Hz2 Hle _.
  destruct (reserve_accepts_listing id oid t (VNum (Fin z1)) z1 now1 db)
    as (t1 & -> & Hav1 & Hst1 & _ & Hv1 & Hl1); try done; [lia|].
  cbn [snd].
  destruct (reserve_accepts_listing id oid t1 (VNum (Fin z2)) z2 now2 (<[oid := t1]> db))
    as (t2 & -> & Hav2 & Hst2 & Hup2 & _ & Hl2); try done;
    [apply lookup_insert_eq | lia |].
  destruct (reserve_accepts_listing id oid t (VNum (Fin (z1 + z2))) (z1 + z2) now2 db)
    as (t3 & -> & Hav3 & Hst3 & Hup3 & _ & Hl3); try done.
  cbn [snd]. rewrite insert_insert_eq. f_equal.
  apply ticket_ext.
  - unfold same_listing in *. intuition congruence.
  - lia.
  - rewrite Hst2, Hst3, Hst1, Hav1.
    replace (availableSeats t - z1 - z2) with (availableSeats t - (z1 + z2)) by lia.
    destruct (Z.eqb_spec (availableSeats t - (z1 + z2)) 0); [done|].
    by destruct (Z.eqb_spec (availableSeats t - z1) 0); [lia|].
  - congruence.
Qed.

(** Reserve never takes a non-negative seat count below zero, whatever the
    quantity, and never raises the seat count on a non-negative quantity. *)
Theorem reserve_never_negative id oid t quantity now db :
  castObjectId id = Some oid →
  db !! oid = Some t →
  ∀ t', (reserve castObjectId id quantity now db).2 !! oid = Some t' →
    (0 ≤ availableSeats t → 0 ≤ availableSeats t')
    ∧ (∀ z, ToNumber quantity = Fin z → 0 ≤ z →
         availableSeats t' ≤ availableSeats t).
Proof.
  intros Hid Hdb t'.
  destruct (reserve_outcome castObjectId id oid t quantity now db Hid Hdb)
    as [r [->|(t1 & -> & _ & _ & Hav)]]; cbn [snd].
  - rewrite Hdb. intros [= <-]. split; [done|]. intros. lia.
  - rewrite lookup_insert_eq. intros [= <-].
    destruct Hav as [(z & Hq & Hle & Hav)|Hav]; (split; [lia|]).
    + intros z' Hq' Hz'. rewrite Hq in Hq'. injection Hq' as <-. lia.
    + intros. lia.
Qed.

(** A record on which sold-out goes with zero seats keeps that after a
    Reserve or a Release of a non-negative quantity. *)
Theorem sold_out_stays_consistent id oid t quantity z now db :
  castObjectId id = Some oid →
  db !! oid = Some t →
  sold_out_consistent t →
  ToNumber quantity = Fin z →
  0 ≤ z →
  (∀ t', (reserve castObjectId id quantity now db).2 !! oid = Some t' →
         sold_out_consistent t')
  ∧ (∀ t', (release castObjectId id quantity now db).2 !! oid = Some t' →
           sold_out_consistent t').
Proof.
  intros Hid Hdb Hso Hq Hz. unfold sold_out_consistent in *. split; intros t'.
  - destruct (reserve_outcome castObjectId id oid t quantity now db Hid Hdb)
      as [r [->|(t1 & -> & Hst & _ & Hav)]]; cbn [snd].
    + rewrite Hdb. by intros [= <-].
    + rewrite lookup_insert_eq. intros [= <-]. rewrite Hst.
      destruct (Z.eqb_spec (availableSeats t1) 0) as [|Hne]; [done|].
      intros Hs. specialize (Hso Hs).
      destruct Hav as [(z' & Hq' & Hle & Hav)|Hav]; [|lia].
      rewrite Hq in Hq'. injection Hq' as <-. lia.
  - destruct (release_outcome castObjectId id oid t quantity now db Hid Hdb)
      as [r [->|(t1 & -> & Hst & _ & Hav)]]; cbn [snd].
    + rewrite Hdb. by intros [= <-].
    + rewrite lookup_insert_eq. intros [= <-]. rewrite Hst.
      destruct (Z.ltb_spec 0 (availableSeats t1)) as [|Hnp]; cbn [andb].
      * destruct (String.eqb_spec (status t) "sold-out"); [done|]. by intros.
      * intros Hs. specialize (Hso Hs). rewrite Hso in Hav.
        assert (0 ≤ availableSeats t1); [|lia]. rewrite Hav.
        destruct quantity as [| |[|]|n|s]; cbn in Hq |- *; try discriminate;
          try (injection Hq as <-; cbn; lia); try (rewrite Hq; cbn; lia).
        destruct (String.eqb _ ""); [done|].
        destruct (StringToNumber (String.append (NumberToString 0) s))
          as [m|] eqn:Hm; [|done].
        by apply zero_prefix_nonneg in Hm.
Qed.


End SeatLedger.

Section Store.

Context {text : JSText}.

Variable castObjectId : string → option ObjectId.

(** What a hydrated body holds. *)
Lemma construct_fields b now t :
  construct b now = Some t →
  in_eventName b = Some (eventName t)
  ∧ in_eventType b = Some (eventType t)
  ∧ in_venue b = Some (venue t)
  ∧ in_date b = Some (date t)
  ∧ in_time b = Some (time t)
  ∧ in_price b = Some (price t)
  ∧ in_totalSeats b = Some (totalSeats t)
  ∧ in_availableSeats b = Some (availableSeats t)
  ∧ currency t = default "USD" (in_currency b)
  ∧ status t = default "active" (in_status b)
  ∧ createdAt t = default now (in_createdAt b)
  ∧ updatedAt t = default now (in_updatedAt b).
Proof.
  unfold construct. intros Hc.
  destruct b as [[?|] [?|] [?|] [?|] [?|] [?|] ? [?|] [?|] ? ? ? ? ?];
    simplify_eq/=. by repeat split.
Qed.

(** What the schema validation checks. *)
Lemma validate_fields t :
  validate t = true →
  eventName t ≠ ""
  ∧ eventType t ∈ eventType_enum
  ∧ venue t ≠ ""
  ∧ time t ≠ ""
  ∧ status t ∈ status_enum.
Proof.
  unfold validate, checkRequired. intros Hv.
  repeat (apply andb_prop in Hv as [Hv ?]).
  repeat match goal with
         | H : bool_decide _ = true |- _ => apply bool_decide_eq_true in H
         | H : negb _ = true |- _ => apply negb_true_iff, String.eqb_neq in H
         end.
  done.
Qed.

(** The two outcomes of Create. *)
Lemma create_cases oid b now db :
  create oid b now db = (mkResponse 500 (BError "Error creating ticket"), db)
  ∨ ∃ t,
      create oid b now db
      = (mkResponse 201 (BMessageTicket "Ticket created successfully" (oid, t)),
         <[oid := t]> db)
      ∧ db !! oid = None
      ∧ validate t = true
      ∧ construct b now = Some t.
Proof.
  unfold create. destruct (construct b now) as [t|]; [|by left].
  destruct (validate t) eqn:Hv; [|by left].
  destruct (db !! oid) eqn:Hdb; [by left|].
  right. by exists t.
Qed.

(** Create followed by Get gives back the record: the created record holds
    every required path as supplied, the schema defaults for the paths left
    out (currency USD, status active, both timestamps now), and Get on its
    identifier answers 200 with that same record. *)
Theorem create_then_get id oid b t now db :
  castObjectId id = Some oid →
  db !! oid = None →
  construct b now = Some t →
  validate t = true →
  create oid b now db
  = (mkResponse 201 (BMessageTicket "Ticket created successfully" (oid, t)),
     <[oid := t]> db)
  ∧ get castObjectId id (create oid b now db).2 = mkResponse 200 (BTicket (oid, t))
  ∧ in_eventName b = Some (eventName t)
  ∧ in_eventType b = Some (eventType t)
  ∧ in_venue b = Some (venue t)
  ∧ in_date b = Some (date t)
  ∧ in_time b = Some (time t)
  ∧ in_price b = Some (price t)
  ∧ in_totalSeats b = Some (totalSeats t)
  ∧ in_availableSeats b = Some (availableSeats t)
  ∧ currency t = default "USD" (in_currency b)
  ∧ status t = default "active" (in_status b)
  ∧ createdAt t = default now (in_createdAt b)
  ∧ updatedAt t = default now (in_updatedAt b).
Proof.
  intros Hid Hdb Hc Hv. unfold create. rewrite Hc, Hv, Hdb. cbn [snd].
  split; [done|]. split.
  { unfold get, findById. rewrite Hid, lookup_insert_eq. done. }
  by apply construct_fields.
Qed.

(** Create stores nothing it has not validated: it answers 500 and leaves
    the collection as it was, or it answers 201 and adds, under an identifier
    that was free, one record that passes the schema validation; no other
    record is touched. *)
Theorem create_outcome oid b now db :
  create oid b now db = (mkResponse 500 (BError "Error creating ticket"), db)
  ∨ ∃ t,
      create oid b now db
      = (mkResponse 201 (BMessageTicket "Ticket created successfully" (oid, t)),
         <[oid := t]> db)
      ∧ db !! oid = None
      ∧ validate t = true
      ∧ ∀ oid', oid' ≠ oid → (create oid b now db).2 !! oid' = db !! oid'.
Proof.
  destruct (create_cases oid b now db) as [|(t & Hc & Hdb & Hv & _)]; [by left|].
  right. exists t. rewrite Hc. repeat split; try done.
  intros oid' Hne. cbn [snd]. by rewrite lookup_insert_ne.
Qed.

(** A body that lacks a required path, or whose event type or status is
    outside its enumeration, or whose required text is empty, is refused with
    500 and nothing is stored. *)
Theorem create_refuses_invalid oid b now db :
  in_eventName b = None ∨ in_eventName b = Some ""
  ∨ in_eventType b = None ∨ (∃ e, in_eventType b = Some e ∧ e ∉ eventType_enum)
  ∨ in_venue b = None ∨ in_venue b = Some ""
  ∨ in_date b = None
  ∨ in_time b = None ∨ in_time b = Some ""
  ∨ in_price b = None
  ∨ in_totalSeats b = None
  ∨ in_availableSeats b = None
  ∨ (∃ s, in_status b = Some s ∧ s ∉ status_enum) →
  create oid b now db = (mkResponse 500 (BError "Error creating ticket"), db).
Proof.
  intros Hbad.
  destruct (create_cases oid b now db) as [|(t & _ & _ & Hv & Hc)]; [done|].
  exfalso.
  apply construct_fields in Hc
    as (E1 & E2 & E3 & E4 & E5 & E6 & E7 & E8 & _ & E10 & _).
  apply validate_fields in Hv as (V1 & V2 & V3 & V4 & V5).
  rewrite E1, E2, E3, E4, E5, E6, E7, E8 in Hbad.
  destruct Hbad as [H|[H|[H|[(e & H & He)|[H|[H|[H|[H|[H|[H|[H|[H|(s & H & Hs)]]]]]]]]]]]];
    try discriminate; try (injection H as H; congruence).
  rewrite H in E10. cbn in E10. congruence.
Qed.

(** Delete followed by Get answers NotFound: a stored record is removed with
    a 200 answer, Get and a second Delete on the same identifier then answer
    404, and every other record is as before. *)
Theorem delete_then_get id oid t db :
  castObjectId id = Some oid →
  db !! oid = Some t →
  delete_ticket castObjectId id db
  = (mkResponse 200 (BMessage "Ticket deleted successfully"), delete oid db)
  ∧ get castObjectId id (delete_ticket castObjectId id db).2
    = mkResponse 404 (BError "Ticket not found")
  ∧ delete_ticket castObjectId id (delete_ticket castObjectId id db).2
    = (mkResponse 404 (BError "Ticket not found"), delete oid db)
  ∧ ∀ oid', oid' ≠ oid →
      (delete_ticket castObjectId id db).2 !! oid' = db !! oid'.
Proof.
  intros Hid Hdb. unfold delete_ticket, get, findById.
  rewrite Hid, Hdb. cbn [snd]. rewrite lookup_delete_eq.
  repeat split. intros oid' Hne. by rewrite lookup_delete_ne.
Qed.


(** Update with a body of plain schema paths, each holding a value of its
    type, followed by Get gives back the updated record: every one of the
    fourteen paths holds the supplied value when the body supplies one and
    keeps its stored value otherwise, except updatedAt, which is the time of
    the update whatever the body says; no other record is touched. *)
Theorem update_then_get id oid t b now db :
  castObjectId id = Some oid →
  db !! oid = Some t →
  ∃ t',
    update castObjectId id b now db
    = (mkResponse 200 (BMessageTicket "Ticket updated successfully" (oid, t')),
       <[oid := t']> db)
    ∧ get castObjectId id (update castObjectId id b now db).2
      = mkResponse 200 (BTicket (oid, t'))
    ∧ eventName t' = default (eventName t) (in_eventName b)
    ∧ eventType t' = default (eventType t) (in_eventType b)
    ∧ venue t' = default (venue t) (in_venue b)
    ∧ date t' = default (date t) (in_date b)
    ∧ time t' = default (time t) (in_time b)
    ∧ price t' = default (price t) (in_price b)
    ∧ currency t' = default (currency t) (in_currency b)
    ∧ totalSeats t' = default (totalSeats t) (in_totalSeats b)
    ∧ availableSeats t' = default (availableSeats t) (in_availableSeats b)
    ∧ description t'
      = match in_description b with Some s => Some s | None => description t end
    ∧ imageUrl t'
      = match in_imageUrl b with Some s => Some s | None => imageUrl t end
    ∧ status t' = default (status t) (in_status b)
    ∧ createdAt t' = default (createdAt t) (in_createdAt b)
    ∧ updatedAt t' = now
    ∧ (∀ oid', oid' ≠ oid →
         (update castObjectId id b now db).2 !! oid' = db !! oid').
Proof.
  intros Hid Hdb. exists (apply_update b now t).
  unfold update, get, findById. rewrite Hid, Hdb. cbn [snd].
  rewrite lookup_insert_eq. repeat split.
  intros oid' Hne. by rewrite lookup_insert_ne.
Qed.


Lemma validate_same_listing t t' :
  same_listing t t' →
  status t' ∈ status_enum →
  validate t = true →
  validate t' = true.
Proof.
  intros (E1 & E2 & E3 & _ & E5 & _) Hs Hv. unfold validate in *.
  rewrite E1, E2, E3, E5.
  repeat (apply andb_prop in Hv as [Hv ?]).
  repeat (apply andb_true_intro; split); try done.
  by apply bool_decide_eq_true.
Qed.

(** Create, Reserve, Release and Delete keep the collection schema-valid:
    when every stored record passes the validation, so does every record
    after any of these requests, whatever its arguments. *)
Theorem validity_kept oid id b quantity now db :
  all_valid db →
  all_valid (create oid b now db).2
  ∧ all_valid (reserve castObjectId id quantity now db).2
  ∧ all_valid (release castObjectId id quantity now db).2
  ∧ all_valid (delete_ticket castObjectId id db).2.
Proof.
  intros Hall. split; [|split; [|split]].
  - destruct (create_cases oid b now db) as [->|(t & -> & _ & Hv & _)]; [done|].
    by apply map_Forall_insert_2.
  - destruct (castObjectId id ≫= (db !!.)) as [t|] eqn:Ht;
      [|by rewrite (reserve_absent castObjectId)].
    apply (addressed_ticket castObjectId) in Ht as (k & Hid & Hdb).
    destruct (reserve_cases castObjectId id k t quantity now db Hid Hdb)
      as [->|(t' & -> & Hl & _ & Hst)]; [done|].
    apply map_Forall_insert_2; [|done].
    apply (validate_same_listing t); [done| |by apply (Hall k)].
    destruct Hst as [->| ->]; [|unfold status_enum; set_solver].
    by apply validate_fields, (Hall k).
  - destruct (castObjectId id ≫= (db !!.)) as [t|] eqn:Ht;
      [|by rewrite (release_absent castObjectId)].
    apply (addressed_ticket castObjectId) in Ht as (k & Hid & Hdb).
    destruct (release_cases castObjectId id k t quantity now db Hid Hdb)
      as [->|(t' & -> & Hl & _ & Hst)]; [done|].
    apply map_Forall_insert_2; [|done].
    apply (validate_same_listing t); [done| |by apply (Hall k)].
    destruct Hst as [->| ->]; [|unfold status_enum; set_solver].
    by apply validate_fields, (Hall k).
  - unfold delete_ticket. destruct (castObjectId id) as [k|]; [|done].
    destruct (db !! k); [|done]. by apply map_Forall_delete.
Qed.

End Store.

Section ListMore.

Context {text : JSText}.

Variable castObjectId : string → option ObjectId.
Variable parseFloat : string → option Q.
Variable parseDate : string → option Z.



Lemma truthy_drop_blank p : truthy (drop_blank p) = truthy p.
Proof. unfold drop_blank. by destruct (truthy p) eqn:E. Qed.

Lemma drop_blank_truthy p : truthy p = true → drop_blank p = p.
Proof. unfold drop_blank. by intros ->. Qed.

(** A parameter given as the empty string is ignored: the answer is the one
    the same query gives with that parameter left out. *)
Theorem list_tickets_ignores_blank query db :
  list_tickets parseFloat parseDate (without_blanks query) db
  = list_tickets parseFloat parseDate query db.
Proof.
  unfold list_tickets. f_equal.
  assert (build_filter parseFloat parseDate (without_blanks query)
          = build_filter parseFloat parseDate query) as ->; [|done].
  unfold build_filter, without_blanks.
  cbn [q_eventType q_status q_minPrice q_maxPrice q_date].
  rewrite !truthy_drop_blank.
  destruct (truthy (q_eventType query)) eqn:E1, (truthy (q_status query)) eqn:E2,
    (truthy (q_minPrice query)) eqn:E3, (truthy (q_maxPrice query)) eqn:E4,
    (truthy (q_date query)) eqn:E5;
    rewrite ?(drop_blank_truthy _ E1), ?(drop_blank_truthy _ E2),
      ?(drop_blank_truthy _ E3), ?(drop_blank_truthy _ E4),
      ?(drop_blank_truthy _ E5); reflexivity.
Qed.

(** The records of a List answer are the stored records that match. *)
Lemma listed_members query db :
  well_formed parseFloat parseDate query = true →
  ∀ oid t,
    (oid, t) ∈ listed (list_tickets parseFloat parseDate query db)
    ↔ db !! oid = Some t ∧ spec_matches parseFloat parseDate query t.
Proof.
  intros Hwf oid t. unfold list_tickets.
  rewrite (find_well_formed parseFloat parseDate _ _ Hwf). cbn [listed json].
  unfold sort_by_date. rewrite merge_sort_Permutation, list_elem_of_filter.
  cbn [snd].
  rewrite elem_of_map_to_list, Is_true_true,
    (matches_spec parseFloat parseDate _ _ Hwf). tauto.
Qed.


(** List follows Delete: after a record has been deleted, a query lists what
    it listed before except that record. *)
Theorem list_after_delete query id oid t db :
  well_formed parseFloat parseDate query = true →
  castObjectId id = Some oid →
  db !! oid = Some t →
  ∀ k x,
    (k, x) ∈ listed (list_tickets parseFloat parseDate query
                       (delete_ticket castObjectId id db).2)
    ↔ (k, x) ∈ listed (list_tickets parseFloat parseDate query db) ∧ k ≠ oid.
Proof.
  intros Hwf Hid Hdb k x. unfold delete_ticket. rewrite Hid, Hdb. cbn [snd].
  rewrite !(listed_members _ _ Hwf). destruct (decide (k = oid)) as [->|Hne].
  - rewrite lookup_delete_eq. split; [by intros [[=] _] | by intros [_ ?]].
  - rewrite lookup_delete_ne by done. split; [done | by intros [? _]].
Qed.

End ListMore.

Section AnySchedule.

Context {text : JSText}.

Variable castObjectId : string → option ObjectId.

(** What [save()] writes for a document loaded earlier, when the stored
    record may have changed since: the seat count written is the document's or
    the one already stored. *)
Lemma save_written oid t0 (v : number) (st : option string) now db :
  let d1 := doc_set_availableSeats v (hydrate oid t0) in
  let d2 := match st with Some s => doc_set_status s d1 | None => d1 end in
  let d3 := doc_set_updatedAt now d2 in
  ∀ db', save d3 db = Ok db' →
    db' = db
    ∨ ∃ cur x,
        db !! oid = Some cur
        ∧ db' = <[oid := x]> db
        ∧ (availableSeats x = availableSeats (fields d3)
           ∨ availableSeats x = availableSeats cur).
Proof.
  destruct t0 as [n e ve da ti pr cu tot av de im s cr up].
  unfold save, doc_set_updatedAt, doc_set_availableSeats, doc_set_status, hydrate.
  destruct v as [z|], st as [s'|];
    cbn [fields _id modifiedPaths castFailed with_availableSeats with_status
         with_updatedAt availableSeats status updatedAt];
    repeat (match goal with
            | |- context [decide (?a = ?b)] => destruct (decide (a = b))
            end;
            cbn [fields _id modifiedPaths castFailed with_availableSeats with_status
                 with_updatedAt availableSeats status updatedAt]);
    cbn [orb]; intros db'; try discriminate;
    match goal with |- context [validate ?x] => destruct (validate x) end;
    cbn [negb]; try discriminate;
    try (intros [= <-]; by left);
    destruct (db !! oid) as [cur|]; try discriminate;
    intros [= <-]; right; eexists cur, _; (split; [done|]); (split; [done|]);
    destruct cur; cbn; auto.
Qed.

Lemma loaded_document d :
  modifiedPaths d = [] → castFailed d = false → d = hydrate (_id d) (fields d).
Proof. destruct d. cbn. by intros -> ->. Qed.

(** One step of one request keeps every seat count non-negative. *)
Lemma proc_step_nonneg now p db :
  seats_nonneg db →
  proc_nonneg p →
  seats_nonneg (proc_step castObjectId now p db).2
  ∧ proc_nonneg (proc_step castObjectId now p db).1.
Proof.
  intros Hdb Hp. destruct p as [id quantity|quantity d|r]; cbn [proc_step].
  - unfold findById. destruct (castObjectId id) as [oid|]; [|done].
    destruct (db !! oid) as [t|] eqn:Ht; cbn; [|done].
    split; [done|]. split; [|done]. by apply (Hdb oid).
  - destruct Hp as (Ha & Hm & Hc).
    rewrite (loaded_document d Hm Hc). set (oid := _id d). set (t0 := fields d).
    fold t0 in Ha. unfold reserve_found. change (fields (hydrate oid t0)) with t0.
    destruct (js_lt _ _) eqn:Hlt; [done|].
    set (v := js_sub (Fin (availableSeats t0)) (ToNumber quantity)).
    rewrite availableSeats_after_assign.
    set (a := match v with Fin z => z | NaN => availableSeats t0 end).
    assert (0 ≤ a) as Hnn.
    { subst a v. destruct (ToNumber quantity) as [z|]; cbn in *; [|done].
      destruct (Z.ltb_spec (availableSeats t0) z); [done|lia]. }
    set (st := if a =? 0 then Some "sold-out" else None).
    destruct (assigned_fields oid t0 v st now) as (_ & Hav & _).
    pose proof (save_written oid t0 v st now db) as Hw. subst st.
    destruct (a =? 0); cbn [default] in *;
      match goal with |- context [save ?d db] => destruct (save d db) as [db'|] eqn:Hs end;
      cbn [fst snd]; try done.
    all: split; [|done].
    all: destruct (Hw db' eq_refl) as [->|(cur & x & Hcur & -> & Hx)]; [done|].
    all: apply map_Forall_insert_2; [|done].
    all: specialize (Hdb oid cur Hcur); cbn in Hdb.
    all: fold a in Hav; destruct Hx as [->| ->]; lia.
  - done.
Qed.

Lemma sched_step_nonneg e (s : DB * list proc) :
  seats_nonneg s.1 →
  Forall proc_nonneg s.2 →
  seats_nonneg (sched_step castObjectId s e).1
  ∧ Forall proc_nonneg (sched_step castObjectId s e).2.
Proof.
  intros Hdb Hps. unfold sched_step.
  destruct (s.2 !! e.1) as [p|] eqn:Hp; [|done].
  assert (proc_nonneg p) as Hpn by (by eapply Forall_lookup_1).
  destruct (proc_step_nonneg e.2 p s.1 Hdb Hpn) as [H1 H2].
  destruct (proc_step castObjectId e.2 p s.1) as [p' db']. cbn [fst snd] in *.
  split; [done|]. by apply Forall_insert.
Qed.

Lemma run_schedule_nonneg sched : ∀ s : DB * list proc,
  seats_nonneg s.1 →
  Forall proc_nonneg s.2 →
  seats_nonneg (run_schedule castObjectId sched s).1.
Proof.
  induction sched as [|e sched IH]; intros s Hdb Hps; [done|].
  cbn [run_schedule foldl].
  destruct (sched_step_nonneg e s Hdb Hps) as [H1 H2].
  by apply IH.
Qed.

(** However the steps of concurrent Reserve requests interleave, and whatever
    tickets and quantities they name, no stored availableSeats becomes
    negative. *)
Theorem interleaved_seats_nonneg (requests : list (string * value)) sched db :
  seats_nonneg db →
  seats_nonneg
    (run_schedule castObjectId sched
       (db, (λ r, Pending r.1 r.2) <$> requests)).1.
Proof.
  intros Hdb. apply run_schedule_nonneg; [done|]. cbn [snd].
  apply Forall_fmap, Forall_forall. by intros [id q] _.
Qed.

End AnySchedule.

(** ** Seeding *)

Lemma hydrate_samples now :
  ∃ t ts,
    hydrate_all sampleTickets now = Some (t :: ts)
    ∧ length (t :: ts) = 5%nat
    ∧ Forall (freshly_seeded now) (t :: ts).
Proof.
  eexists _, _. split; [vm_compute; reflexivity|]. split; [done|].
  repeat (apply Forall_cons; split); try apply Forall_nil;
    unfold freshly_seeded; cbn; repeat split; lia.
Qed.

Lemma insert_ordered_keeps newId ts : ∀ i (db : DB) k t,
  db !! k = Some t → (insert_ordered newId i ts db).1 !! k = Some t.
Proof.
  induction ts as [|x ts IH]; intros i db k t Hk; cbn [insert_ordered]; [done|].
  destruct (db !! newId i) eqn:Hi; [done|].
  apply IH. rewrite lookup_insert_ne; [done|]. intros <-. congruence.
Qed.

Lemma insert_ordered_Forall (P : Ticket → Prop) newId ts : ∀ i (db : DB),
  Forall P ts →
  map_Forall (λ _, P) db →
  map_Forall (λ _, P) (insert_ordered newId i ts db).1.
Proof.
  induction ts as [|x ts IH]; intros i db Hts Hdb; cbn [insert_ordered]; [done|].
  destruct (db !! newId i) eqn:Hi; [done|].
  apply Forall_cons in Hts as [Hx Hts].
  apply IH; [done|]. by apply map_Forall_insert_2.
Qed.

Lemma insert_ordered_size newId ts : ∀ i (db : DB),
  NoDup (newId <$> seq i (length ts)) →
  (∀ j, j ∈ seq i (length ts) → db !! newId j = None) →
  size (insert_ordered newId i ts db).1 = (size db + length ts)%nat.
Proof.
  induction ts as [|x ts IH]; intros i db Hnd Hfree; cbn [insert_ordered length].
  { cbn. lia. }
  cbn [length seq fmap list_fmap] in Hnd, Hfree.
  apply NoDup_cons in Hnd as [Hni Hnd].
  rewrite (Hfree i) by (left).
  rewrite IH; [| done |].
  - rewrite map_size_insert_None by (apply Hfree; left). lia.
  - intros j Hj. rewrite lookup_insert_ne; [apply Hfree; by right|].
    intros Heq. apply Hni. rewrite Heq. by apply list_elem_of_fmap_2.
Qed.

(** Seeding happens once: on a collection that holds a record
    [seedDatabase] changes nothing, and running it again after it has run,
    with whatever identifiers and clock, changes nothing. *)
Theorem seedDatabase_idempotent newId newId' now now' db :
  (size db ≠ 0%nat → seedDatabase newId now db = db)
  ∧ seedDatabase newId' now' (seedDatabase newId now db)
    = seedDatabase newId now db.
Proof.
  split; [intros Hne; unfold seedDatabase; by case_decide|].
  unfold seedDatabase at 2 3. case_decide as Hsz.
  - apply map_size_empty_inv in Hsz as ->.
    destruct (hydrate_samples now) as (t & ts & Hh & _).
    unfold insertMany. rewrite Hh. cbn [insert_ordered].
    rewrite lookup_empty.
    unfold seedDatabase. case_decide as Hsz'; [|done].
    apply map_size_empty_inv in Hsz'.
    pose proof (insert_ordered_keeps newId ts 1 (<[newId 0%nat := t]> ∅)
                  (newId 0%nat) t (lookup_insert_eq _ _ _)) as Hk.
    rewrite Hsz', lookup_empty in Hk. discriminate.
  - unfold seedDatabase. by case_decide.
Qed.

(** Seeding an empty collection stores only records that pass the schema
    validation, are active, priced in USD, fully available
    ([availableSeats = totalSeats]) and stamped with the time of seeding; when
    the five generated identifiers are distinct it stores five records. *)
Theorem seedDatabase_records newId now db :
  size db = 0%nat →
  map_Forall (λ _, freshly_seeded now) (seedDatabase newId now db)
  ∧ (NoDup (newId <$> seq 0 5) → size (seedDatabase newId now db) = 5%nat).
Proof.
  intros Hsz. unfold seedDatabase. rewrite decide_True by done.
  apply map_size_empty_inv in Hsz as ->.
  destruct (hydrate_samples now) as (t & ts & Hh & Hlen & Hall).
  unfold insertMany. rewrite Hh. split.
  - apply insert_ordered_Forall; [done|]. apply map_Forall_empty.
  - intros Hnd. rewrite insert_ordered_size.
    + rewrite Hlen, map_size_empty. done.
    + by rewrite Hlen.
    + intros j _. apply lookup_empty.
Qed.

(** Seeding keeps the seat invariant and the validity of the collection. *)
Theorem seedDatabase_keeps_invariants newId now db :
  all_valid db →
  db_invariant db →
  all_valid (seedDatabase newId now db)
  ∧ db_invariant (seedDatabase newId now db).
Proof.
  intros Hv Hi. unfold seedDatabase. case_decide; [|done].
  destruct (hydrate_samples now) as (t & ts & Hh & _ & Hall).
  unfold insertMany. rewrite Hh. split.
  - apply (insert_ordered_Forall (λ t, validate t = true)); [|done].
    eapply Forall_impl; [done|]. by intros x (? & _).
  - apply (insert_ordered_Forall seat_invariant); [|done].
    eapply Forall_impl; [done|]. intros x (_ & _ & _ & Ha & Ht & _).
    unfold seat_invariant. lia.
Qed.

(** * The handlers on sample requests *)

#[local] Existing Instance decimal_text.


Lemma reserve_insufficient_unchanged_witness :
  reserve castObjectId_hex oid1 (VNum (Fin 501)) 7 seeded
  = (mkResponse 400 (BError "Not enough seats available"), seeded)
  ∧ (reserve castObjectId_hex oid1 (VNum (Fin 501)) 7 seeded).2 !! key1
    = Some rock_concert.
Proof.
  apply (reserve_insufficient_unchanged castObjectId_hex oid1
           key1 rock_concert (VNum (Fin 501)) 501 7 seeded).
  - vm_compute; reflexivity.
  - vm_compute; reflexivity.
  - reflexivity.
  - cbn; lia.
Defined.

Lemma reserve_release_status_witness :
  code (reserve castObjectId_hex oid1 (VNum (Fin 500)) 7 seeded).1 = 200
  ∧ ∃ z t1,
      ToNumber (VNum (Fin 500)) = Fin z
      ∧ reserve castObjectId_hex oid1 (VNum (Fin 500)) 7 seeded
        = (mkResponse 200 (BMessageTicket "Seats reserved successfully" (key1, t1)),
           <[key1 := t1]> seeded)
      ∧ (availableSeats t1 = 0 ↔ z = availableSeats rock_concert)
      ∧ (availableSeats t1 = 0 →
         status t1 = "sold-out"
         ∧ ∀ quantity2 z2 now2,
             is_text quantity2 = false →
             ToNumber quantity2 = Fin z2 →
             1 ≤ z2 →
             ∃ t2,
               release castObjectId_hex oid1 quantity2 now2 (<[key1 := t1]> seeded)
               = (mkResponse 200
                    (BMessageTicket "Seats released successfully" (key1, t2)),
                  <[key1 := t2]> (<[key1 := t1]> seeded))
               ∧ availableSeats t2 = z2
               ∧ status t2 = "active")
      ∧ (0 < availableSeats t1 → status t1 = status rock_concert).
Proof.
  destruct (reserve_release_status castObjectId_hex oid1
              key1 rock_concert (VNum (Fin 500)) 7 seeded) as [Hok Hdone].
  - vm_compute; reflexivity.
  - vm_compute; reflexivity.
  - assert (code (reserve castObjectId_hex oid1 (VNum (Fin 500)) 7 seeded).1 = 200)
      as Hcode.
    { apply (Hok eq_refl 500 eq_refl). cbn; lia. }
    split; [exact Hcode | exact (Hdone Hcode)].
Defined.

(** The two branches on the seeded concert: all 500 seats, then 200. *)
Example reserve_all_then_release_one :
  (let db1 := (reserve castObjectId_hex oid1 (VNum (Fin 500)) 7 seeded).2 in
   availableSeats <$> db1 !! key1 = Some 0
   ∧ status <$> db1 !! key1 = Some "sold-out"
   ∧ availableSeats
     <$> (release castObjectId_hex oid1 (VNum (Fin 1)) 9 db1).2 !! key1 = Some 1
   ∧ status
     <$> (release castObjectId_hex oid1 (VNum (Fin 1)) 9 db1).2 !! key1 = Some "active")
  ∧ availableSeats
    <$> (reserve castObjectId_hex oid1 (VNum (Fin 200)) 7 seeded).2 !! key1 = Some 300
  ∧ status
    <$> (reserve castObjectId_hex oid1 (VNum (Fin 200)) 7 seeded).2 !! key1 = Some "active".
Proof. vm_compute. repeat split. Qed.

(** C6, as stated, fails: on a stored record that does not pass the schema
    validation (here after an Update gave it a status outside the
    enumeration), a Release beyond the missing seats is answered 500 and the
    record keeps its seat count. *)
Lemma release_refused_after_relabel :
  (∃ t, relabelled !! key1 = Some t
        ∧ status t = "postponed"
        ∧ totalSeats t - availableSeats t < 10)
  ∧ release castObjectId_hex oid1 (VNum (Fin 10)) 7 relabelled
    = (mkResponse 500 (BError "Error releasing seats"), relabelled).
Proof.
  split; [|vm_compute; reflexivity].
  eexists. split; [vm_compute; reflexivity|]. split; [reflexivity|cbn; lia].
Qed.

Lemma release_unclamped_witness :
  ∃ t',
    release castObjectId_hex oid1 (VNum (Fin 10)) 7 seeded
    = (mkResponse 200
         (BMessageTicket "Seats released successfully"
            (key1, t')),
       <[key1 := t']> seeded)
    ∧ availableSeats t' = availableSeats rock_concert + 10
    ∧ totalSeats t' = totalSeats rock_concert
    ∧ totalSeats t' < availableSeats t'.
Proof.
  apply (release_unclamped castObjectId_hex oid1
           key1 rock_concert (VNum (Fin 10)) 10 7 seeded).
  - vm_compute; reflexivity.
  - vm_compute; reflexivity.
  - reflexivity.
  - reflexivity.
  - reflexivity.
  - unfold safe_integer, max_safe; cbn; lia.
  - unfold safe_integer, max_safe; lia.
  - unfold safe_integer, max_safe; cbn; lia.
  - cbn; lia.
Defined.

(** C3, as stated, fails: a Release of -10 seats is accepted and changes the
    record. *)
Lemma release_negative_accepted :
  code (release castObjectId_hex oid1 (VNum (Fin (-10))) 7 seeded).1 = 200
  ∧ availableSeats <$> (release castObjectId_hex oid1 (VNum (Fin (-10))) 7 seeded).2 !! key1
    = Some 490
  ∧ (release castObjectId_hex oid1 (VNum (Fin (-10))) 7 seeded).2 !! key1 ≠ seeded !! key1.
Proof. vm_compute. repeat split. discriminate. Qed.

Lemma quantity_not_validated_witness :
  reserve castObjectId_hex oid1 (VStr "a few") 7 seeded
  = (mkResponse 500 (BError "Error reserving seats"), seeded)
  ∧ reserve castObjectId_hex oid1 VUndefined 7 seeded
    = (mkResponse 500 (BError "Error reserving seats"), seeded)
  ∧ release castObjectId_hex oid1 VUndefined 7 seeded
    = (mkResponse 500 (BError "Error releasing seats"), seeded)
  ∧ reserve castObjectId_hex oid1 (VStr "5") 7 seeded
    = reserve castObjectId_hex oid1 (VNum (Fin 5)) 7 seeded
  ∧ (∃ t',
       release castObjectId_hex oid1 (VStr "5") 7 seeded
       = (mkResponse 200 (BMessageTicket "Seats released successfully" (key1, t')),
          <[key1 := t']> seeded)
       ∧ availableSeats t' = 5005)
  ∧ release castObjectId_hex oid1 (VStr " seats") 7 seeded
    = (mkResponse 500 (BError "Error releasing seats"), seeded)
  ∧ (∃ t',
       release castObjectId_hex oid1 (VNum (Fin (-10))) 7 seeded
       = (mkResponse 200 (BMessageTicket "Seats released successfully" (key1, t')),
          <[key1 := t']> seeded)
       ∧ availableSeats t' = availableSeats rock_concert + -10)
  ∧ (∃ t',
       reserve castObjectId_hex oid1 (VNum (Fin (-10))) 7 seeded
       = (mkResponse 200 (BMessageTicket "Seats reserved successfully" (key1, t')),
          <[key1 := t']> seeded)
       ∧ availableSeats t' = availableSeats rock_concert - -10).
Proof.
  destruct (quantity_not_validated castObjectId_hex oid1 key1 rock_concert 7 seeded)
    as (Hnan & Hrel & Hread & Htext & Hneg).
  - vm_compute; reflexivity.
  - vm_compute; reflexivity.
  - reflexivity.
  - pose proof (Htext "5") as H5. pose proof (Htext " seats") as Hs.
    change (castNumber _) with (Fin 5005) in H5.
    change (castNumber _) with NaN in Hs.
    destruct (Hneg (-10)) as (Hadd & Hsub);
      [lia | unfold safe_integer, max_safe; cbn; lia
       | unfold safe_integer, max_safe; lia |].
    split; [apply Hnan; reflexivity|].
    split; [apply Hnan; reflexivity|].
    split; [exact Hrel|].
    split; [apply Hread; reflexivity|].
    split; [exact H5|].
    split; [exact Hs|].
    split.
    + apply Hadd. unfold safe_integer, max_safe; cbn; lia.
    + apply Hsub; [cbn; lia | unfold safe_integer, max_safe; cbn; lia].
Defined.

(** A string quantity is appended by Release: 500 seats and "5" make 5005. *)
Example release_text_appends :
  code (release castObjectId_hex oid1 (VStr "5") 7 seeded).1 = 200
  ∧ availableSeats <$> (release castObjectId_hex oid1 (VStr "5") 7 seeded).2 !! key1
    = Some 5005.
Proof. vm_compute. split; reflexivity. Qed.

(** C10, as stated, fails: without a quantity the handler does not report
    success and the stored record keeps its seat count. *)
Lemma reserve_undefined_rejected :
  reserve castObjectId_hex oid1 VUndefined 7 seeded
  = (mkResponse 500 (BError "Error reserving seats"), seeded)
  ∧ availableSeats <$> (reserve castObjectId_hex oid1 VUndefined 7 seeded).2 !! key1
    = Some 500.
Proof. vm_compute. split; reflexivity. Qed.

Lemma reserve_without_quantity_witness :
  js_lt (Fin (availableSeats rock_concert)) (ToNumber VUndefined) = false
  ∧ js_sub (Fin (availableSeats rock_concert)) (ToNumber VUndefined) = NaN
  ∧ reserve castObjectId_hex oid1 VUndefined 7 seeded
    = (mkResponse 500 (BError "Error reserving seats"), seeded).
Proof.
  apply (reserve_without_quantity castObjectId_hex oid1 key1 rock_concert VUndefined 7 seeded).
  - vm_compute; reflexivity.
  - vm_compute; reflexivity.
  - reflexivity.
Defined.

(** C8, as stated, fails: reserving the last five seats of a cancelled show
    turns its status into sold-out. *)
Lemma reserve_overwrites_cancelled :
  status called_off = "cancelled"
  ∧ status <$> (reserve castObjectId_hex oid3 (VNum (Fin 5)) 7 with_called_off).2 !! key3
    = Some "sold-out".
Proof. vm_compute. split; reflexivity. Qed.

Lemma administrative_status_kept_witness :
  (∀ t', (release castObjectId_hex oid3 (VNum (Fin 2)) 7 with_called_off).2 !! key3 = Some t' →
         status t' = status called_off)
  ∧ (∀ t', (reserve castObjectId_hex oid3 (VNum (Fin 2)) 7 with_called_off).2 !! key3 = Some t' →
           availableSeats t' ≠ 0 →
           status t' = status called_off).
Proof.
  apply (administrative_status_kept castObjectId_hex oid3 key3 called_off
           (VNum (Fin 2)) 7 with_called_off).
  - vm_compute; reflexivity.
  - vm_compute; reflexivity.
  - left; reflexivity.
Defined.

(** C7, as stated, fails: a malformed identifier is not answered NotFound. *)
Lemma get_malformed_not_404 :
  castObjectId_hex "abc" = None
  ∧ get castObjectId_hex "abc" seeded = mkResponse 500 (BError "Error fetching ticket")
  ∧ code (get castObjectId_hex "abc" seeded) ≠ 404.
Proof. vm_compute. repeat split. discriminate. Qed.

Lemma get_by_id_witness :
  get castObjectId_hex oid1 seeded = mkResponse 200 (BTicket (key1, rock_concert))
  ∧ get castObjectId_hex oid3 seeded = mkResponse 404 (BError "Ticket not found")
  ∧ get castObjectId_hex "abc" seeded = mkResponse 500 (BError "Error fetching ticket").
Proof.
  destruct (get_by_id castObjectId_hex oid1 seeded) as (H1 & _ & _).
  destruct (get_by_id castObjectId_hex oid3 seeded) as (_ & H2 & _).
  destruct (get_by_id castObjectId_hex "abc" seeded) as (_ & _ & H3).
  split; [|split].
  - apply (H1 key1 rock_concert); vm_compute; reflexivity.
  - apply (H2 key3); vm_compute; reflexivity.
  - apply H3; vm_compute; reflexivity.
Defined.



(** Five seats, three serial requests for two: two succeed, one is refused,
    one seat is left. *)
Example serial_five_by_two :
  let final :=
    run_schedule castObjectId_hex (serial 0 [1; 2; 3])
      (with_called_off, replicate 3 (Pending oid3 (VNum (Fin 2)))) in
  count_code 200 final.2 = 2%nat
  ∧ count_code 400 final.2 = 1%nat
  ∧ availableSeats <$> final.1 !! key3 = Some 1.
Proof. vm_compute. repeat split. Qed.

Lemma seat_invariant_preserved_witness :
  db_invariant (run castObjectId_hex sample_ops seeded).
Proof.
  apply (seat_invariant_preserved castObjectId_hex sample_ops seeded).
  - unfold seeded. apply map_Forall_insert_2; [unfold seat_invariant; cbn; lia|].
    apply map_Forall_insert_2; [unfold seat_invariant; cbn; lia|].
    apply map_Forall_empty.
  - vm_compute; reflexivity.
Defined.

(** The sequence does change the collection. *)
Example sample_ops_seats :
  availableSeats <$> run castObjectId_hex sample_ops seeded !! key1 = Some 500
  ∧ availableSeats <$> run castObjectId_hex sample_ops seeded !! key2 = Some 10
  ∧ availableSeats <$> run castObjectId_hex sample_ops seeded !! key3 = Some 0
  ∧ status <$> run castObjectId_hex sample_ops seeded !! key3 = Some "sold-out".
Proof. vm_compute. repeat split. Qed.



(** A date-only parameter denotes a UTC midnight, so the records listed for
    it are those of that calendar day. *)
Example list_premiere_day :
  list_tickets parseFloat_digits parseDate_iso premiere_day seeded
  = mkResponse 200 (BTickets [(key2, movie_premiere)])
  ∧ parseDate_iso "2024-11-30" = Some (20057 * 86400000)
  ∧ parseDate_instant "2024-11-30T12:00:00Z" = Some (20057 * 86400000 + 43200000).
Proof. vm_compute. repeat split. Qed.

(** The filter examples of the specification: tickets of types concert and
    movie priced 85 and 25. *)
Example list_by_eventType :
  list_tickets parseFloat_digits parseDate_iso
    (mkQuery (Some "concert") None None None None) seeded
  = mkResponse 200 (BTickets [(key1, rock_concert)]).
Proof. vm_compute. reflexivity. Qed.

Example list_by_minPrice :
  list_tickets parseFloat_digits parseDate_iso at_least_50 seeded
  = mkResponse 200 (BTickets [(key1, rock_concert)]).
Proof. vm_compute. reflexivity. Qed.

Example list_all_by_date :
  list_tickets parseFloat_digits parseDate_iso empty_query seeded
  = mkResponse 200 (BTickets [(key2, movie_premiere); (key1, rock_concert)]).
Proof. vm_compute. reflexivity. Qed.

Example list_by_day :
  list_tickets parseFloat_digits parseDate_iso
    (mkQuery None None None None (Some "2024-11-30")) seeded
  = mkResponse 200 (BTickets [(key2, movie_premiere)]).
Proof. vm_compute. reflexivity. Qed.

(** A price bound that does not read as a number is refused by the query
    cast. *)
Example list_bad_price :
  list_tickets parseFloat_digits parseDate_iso
    (mkQuery None None (Some "cheap") None None) seeded
  = mkResponse 500 (BError "Error fetching tickets").
Proof. vm_compute. reflexivity. Qed.

(** * Further sample requests *)

(** The dates of the seed documents are the instants their date strings
    denote. *)
Example sample_dates :
  parseDate_iso "2024-12-15" = Some 1734220800000
  ∧ parseDate_iso "2024-11-30" = Some 1732924800000
  ∧ parseDate_iso "2024-12-20" = Some 1734652800000
  ∧ parseDate_iso "2024-12-01" = Some 1733011200000
  ∧ parseDate_iso "2024-12-10" = Some 1733788800000.
Proof. vm_compute. repeat split. Qed.

Lemma seat_handlers_keep_listing_witness :
  (∀ t', (reserve castObjectId_hex oid1 (VNum (Fin 3)) 7 seeded).2 !! key1 = Some t' →
         same_listing rock_concert t')
  ∧ (∀ t', (release castObjectId_hex oid1 (VNum (Fin 3)) 7 seeded).2 !! key1 = Some t' →
           same_listing rock_concert t').
Proof.
  apply (seat_handlers_keep_listing castObjectId_hex oid1 key1 rock_concert
           (VNum (Fin 3)) 7 seeded).
  - vm_compute; reflexivity.
  - vm_compute; reflexivity.
Defined.

Lemma seat_handlers_frame_witness :
  (reserve castObjectId_hex oid1 (VNum (Fin 3)) 7 seeded).2 !! key2 = seeded !! key2
  ∧ (release castObjectId_hex oid1 (VNum (Fin 3)) 7 seeded).2 !! key2 = seeded !! key2.
Proof.
  destruct (seat_handlers_frame castObjectId_hex oid1 (VNum (Fin 3)) 7 seeded)
    as (Hother & _ & _).
  apply (Hother key1 key2).
  - vm_compute; reflexivity.
  - vm_compute; discriminate.
Defined.


Lemma reserve_additive_witness :
  (reserve castObjectId_hex oid1 (VNum (Fin 200)) 9
     (reserve castObjectId_hex oid1 (VNum (Fin 300)) 7 seeded).2).2
  = (reserve castObjectId_hex oid1 (VNum (Fin (300 + 200))) 9 seeded).2.
Proof.
  apply (reserve_additive castObjectId_hex oid1 key1 rock_concert 300 200 7 9 seeded).
  - vm_compute; reflexivity.
  - vm_compute; reflexivity.
  - reflexivity.
  - lia.
  - lia.
  - cbn; lia.
  - unfold max_safe; cbn; lia.
Defined.

(** On a record that does not pass the schema validation the two ways
    differ: each partial reservation is refused at [save()], while the
    reservation of all the seats sets the status to sold-out, which makes the
    record valid, and is stored. *)
Example reserve_additive_needs_valid :
  (reserve castObjectId_hex oid1 (VNum (Fin 200)) 9
     (reserve castObjectId_hex oid1 (VNum (Fin 300)) 7 relabelled).2).2
  = relabelled
  ∧ availableSeats <$> relabelled !! key1 = Some 500
  ∧ availableSeats
    <$> (reserve castObjectId_hex oid1 (VNum (Fin (300 + 200))) 9 relabelled).2 !! key1
    = Some 0.
Proof. vm_compute. repeat split. Qed.

Lemma reserve_never_negative_witness :
  (reserve castObjectId_hex oid1 (VNum (Fin 500)) 7 seeded).2 !! key1
  = Some (with_updatedAt 7 (with_status "sold-out" (with_availableSeats 0 rock_concert)))
  ∧ (0 ≤ availableSeats rock_concert →
     0 ≤ availableSeats
           (with_updatedAt 7 (with_status "sold-out" (with_availableSeats 0 rock_concert))))
  ∧ (∀ z, ToNumber (VNum (Fin 500)) = Fin z → 0 ≤ z →
       availableSeats
         (with_updatedAt 7 (with_status "sold-out" (with_availableSeats 0 rock_concert)))
       ≤ availableSeats rock_concert).
Proof.
  split; [vm_compute; reflexivity|].
  apply (reserve_never_negative castObjectId_hex oid1 key1 rock_concert
           (VNum (Fin 500)) 7 seeded).
  - vm_compute; reflexivity.
  - vm_compute; reflexivity.
  - vm_compute; reflexivity.
Defined.

Lemma sold_out_stays_consistent_witness :
  (∀ t', (reserve castObjectId_hex oid1 (VNum (Fin 500)) 7 seeded).2 !! key1 = Some t' →
         sold_out_consistent t')
  ∧ (∀ t', (release castObjectId_hex oid1 (VNum (Fin 500)) 7 seeded).2 !! key1 = Some t' →
           sold_out_consistent t').
Proof.
  apply (sold_out_stays_consistent castObjectId_hex oid1 key1 rock_concert
           (VNum (Fin 500)) 500 7 seeded).
  - vm_compute; reflexivity.
  - vm_compute; reflexivity.
  - unfold sold_out_consistent; cbn; discriminate.
  - reflexivity.
  - lia.
Defined.


Lemma create_then_get_witness :
  create key3 jazz_night 1 seeded
  = (mkResponse 201
       (BMessageTicket "Ticket created successfully" (key3, jazz_night_record 1)),
     <[key3 := jazz_night_record 1]> seeded)
  ∧ get castObjectId_hex oid3 (create key3 jazz_night 1 seeded).2
    = mkResponse 200 (BTicket (key3, jazz_night_record 1)).
Proof.
  destruct (create_then_get castObjectId_hex oid3 key3 jazz_night (jazz_night_record 1)
              1 seeded) as (Hc & Hg & _).
  - vm_compute; reflexivity.
  - vm_compute; reflexivity.
  - vm_compute; reflexivity.
  - reflexivity.
  - by split.
Defined.

Lemma create_refuses_invalid_witness :
  create key3 no_venue 1 seeded
  = (mkResponse 500 (BError "Error creating ticket"), seeded).
Proof.
  apply (create_refuses_invalid key3 no_venue 1 seeded).
  do 4 right. left. reflexivity.
Defined.

Lemma delete_then_get_witness :
  delete_ticket castObjectId_hex oid1 seeded
  = (mkResponse 200 (BMessage "Ticket deleted successfully"), delete key1 seeded)
  ∧ get castObjectId_hex oid1 (delete_ticket castObjectId_hex oid1 seeded).2
    = mkResponse 404 (BError "Ticket not found")
  ∧ delete_ticket castObjectId_hex oid1 (delete_ticket castObjectId_hex oid1 seeded).2
    = (mkResponse 404 (BError "Ticket not found"), delete key1 seeded)
  ∧ ∀ oid', oid' ≠ key1 →
      (delete_ticket castObjectId_hex oid1 seeded).2 !! oid' = seeded !! oid'.
Proof.
  apply (delete_then_get castObjectId_hex oid1 key1 rock_concert seeded).
  - vm_compute; reflexivity.
  - vm_compute; reflexivity.
Defined.

Lemma update_then_get_witness :
  ∃ t',
    update castObjectId_hex oid2 (seats_only 10) 4 seeded
    = (mkResponse 200 (BMessageTicket "Ticket updated successfully" (key2, t')),
       <[key2 := t']> seeded)
    ∧ get castObjectId_hex oid2 (update castObjectId_hex oid2 (seats_only 10) 4 seeded).2
      = mkResponse 200 (BTicket (key2, t'))
    ∧ eventName t'
      = default (eventName movie_premiere) (in_eventName (seats_only 10))
    ∧ eventType t'
      = default (eventType movie_premiere) (in_eventType (seats_only 10))
    ∧ venue t' = default (venue movie_premiere) (in_venue (seats_only 10))
    ∧ date t' = default (date movie_premiere) (in_date (seats_only 10))
    ∧ time t' = default (time movie_premiere) (in_time (seats_only 10))
    ∧ price t' = default (price movie_premiere) (in_price (seats_only 10))
    ∧ currency t'
      = default (currency movie_premiere) (in_currency (seats_only 10))
    ∧ totalSeats t'
      = default (totalSeats movie_premiere) (in_totalSeats (seats_only 10))
    ∧ availableSeats t'
      = default (availableSeats movie_premiere) (in_availableSeats (seats_only 10))
    ∧ description t'
      = match in_description (seats_only 10) with
        | Some s => Some s
        | None => description movie_premiere
        end
    ∧ imageUrl t'
      = match in_imageUrl (seats_only 10) with
        | Some s => Some s
        | None => imageUrl movie_premiere
        end
    ∧ status t' = default (status movie_premiere) (in_status (seats_only 10))
    ∧ createdAt t'
      = default (createdAt movie_premiere) (in_createdAt (seats_only 10))
    ∧ updatedAt t' = 4
    ∧ (∀ oid', oid' ≠ key2 →
         (update castObjectId_hex oid2 (seats_only 10) 4 seeded).2 !! oid'
         = seeded !! oid').
Proof.
  apply (update_then_get castObjectId_hex oid2 key2 movie_premiere (seats_only 10) 4 seeded).
  - vm_compute; reflexivity.
  - vm_compute; reflexivity.
Defined.

Lemma validity_kept_witness :
  all_valid (create key3 jazz_night 1 seeded).2
  ∧ all_valid (reserve castObjectId_hex oid1 (VNum (Fin 500)) 7 seeded).2
  ∧ all_valid (release castObjectId_hex oid1 VUndefined 7 seeded).2
  ∧ all_valid (delete_ticket castObjectId_hex oid2 seeded).2.
Proof.
  assert (all_valid seeded) as Hv.
  { unfold seeded. apply map_Forall_insert_2; [reflexivity|].
    apply map_Forall_insert_2; [reflexivity|]. apply map_Forall_empty. }
  destruct (validity_kept castObjectId_hex key3 oid1 jazz_night (VNum (Fin 500)) 7 seeded Hv)
    as (H1 & H2 & _ & _).
  destruct (validity_kept castObjectId_hex key3 oid1 jazz_night VUndefined 7 seeded Hv)
    as (_ & _ & H3 & _).
  destruct (validity_kept castObjectId_hex key3 oid2 jazz_night VUndefined 1 seeded Hv)
    as (H1' & _ & _ & H4).
  by repeat split.
Defined.


(** Blank parameters on the seeded collection: everything is listed. *)
Example list_blank_query :
  list_tickets parseFloat_digits parseDate_iso blank_query seeded
  = list_tickets parseFloat_digits parseDate_iso empty_query seeded.
Proof. vm_compute. reflexivity. Qed.


Example list_after_create_concerts :
  listed (list_tickets parseFloat_digits parseDate_iso
            (mkQuery (Some "concert") None None None None)
            (create key3 jazz_night 1 seeded).2)
  = [(key1, rock_concert); (key3, jazz_night_record 1)].
Proof. vm_compute. reflexivity. Qed.

Lemma list_after_delete_witness :
  (key2, movie_premiere)
  ∈ listed (list_tickets parseFloat_digits parseDate_iso empty_query
              (delete_ticket castObjectId_hex oid1 seeded).2)
  ↔ (key2, movie_premiere)
    ∈ listed (list_tickets parseFloat_digits parseDate_iso empty_query seeded)
    ∧ key2 ≠ key1.
Proof.
  apply (list_after_delete castObjectId_hex parseFloat_digits parseDate_iso
           empty_query oid1 key1 rock_concert seeded).
  - vm_compute; reflexivity.
  - vm_compute; reflexivity.
  - vm_compute; reflexivity.
Defined.

Lemma interleaved_seats_nonneg_witness :
  seats_nonneg
    (run_schedule castObjectId_hex [(0%nat, 1); (1%nat, 2); (0%nat, 3); (1%nat, 4)]
       (nearly_full,
        (λ r, Pending r.1 r.2) <$> [(oid1, VNum (Fin 1)); (oid1, VNum (Fin 1))])).1.
Proof.
  apply (interleaved_seats_nonneg castObjectId_hex
           [(oid1, VNum (Fin 1)); (oid1, VNum (Fin 1))]
           [(0%nat, 1); (1%nat, 2); (0%nat, 3); (1%nat, 4)] nearly_full).
  unfold nearly_full. apply map_Forall_insert_2; [cbn; lia|]. apply map_Forall_empty.
Defined.

Lemma seedDatabase_idempotent_witness :
  seedDatabase seed_id 5 seeded = seeded
  ∧ seedDatabase seed_id 9 (seedDatabase seed_id 5 ∅) = seedDatabase seed_id 5 ∅.
Proof.
  destruct (seedDatabase_idempotent seed_id seed_id 5 9 seeded) as (Hkeep & _).
  destruct (seedDatabase_idempotent seed_id seed_id 5 9 ∅) as (_ & Hagain).
  split; [apply Hkeep; vm_compute; discriminate | exact Hagain].
Defined.

Lemma seedDatabase_records_witness :
  map_Forall (λ _, freshly_seeded 5) (seedDatabase seed_id 5 ∅)
  ∧ (NoDup (seed_id <$> seq 0 5) → size (seedDatabase seed_id 5 ∅) = 5%nat).
Proof.
  apply (seedDatabase_records seed_id 5 ∅). vm_compute; reflexivity.
Defined.

(** The seeded collection, listed: the five events in order of date. *)
Example seeded_listing :
  eventName ∘ snd
  <$> listed (list_tickets parseFloat_digits parseDate_iso empty_query
                (seedDatabase seed_id 5 ∅))
  = ["BlockBuster Movie Premiere"; "Shakespeare's Hamlet"; "Tech Summit 2024";
     "Rock Concert 2024"; "NBA Finals Game 7"].
Proof. vm_compute. reflexivity. Qed.

Lemma seedDatabase_keeps_invariants_witness :
  all_valid (seedDatabase seed_id 5 ∅) ∧ db_invariant (seedDatabase seed_id 5 ∅).
Proof.
  apply (seedDatabase_keeps_invariants seed_id 5 ∅); apply map_Forall_empty.
Defined.
